(** * Servers view: the tree data provider of the server explorer

    A shallow embedding of [src/serverExplorer.ts], which holds two variants
    of the class [ServersViewTreeDataProvider]:

    - the handle-tracking variant (module [HandleTracking]), which keeps a
      [servers] map from identifier to server handle next to the
      [serverStatus] map, and
    - the state-only variant (module [StateOnly]), which keeps the
      [serverStatus] map alone.

    JavaScript [Map]s are insertion-ordered association lists ([JsMap]),
    methods are computations in a state-and-exception monad over the fields
    of the provider object, output channels live in a store of host objects
    addressed by reference, and promises are their settled outcomes.
    A string is the sequence of the UTF-8 bytes of its text. *)

From Stdlib Require Import ZArith Ascii DecimalString DecimalPos DecimalZ.
From stdpp Require Import base decidable option list strings.

Local Open Scope string_scope.
Local Open Scope list_scope.

(** ** JavaScript values *)

(** Truthiness of a string-valued property that may be absent: [undefined]
    and the empty string are falsy. *)
Definition truthy (v : option string) : bool :=
match v with
| Some s => negb (String.eqb s "")
| None => false
end.

(** A template literal prints an absent value as the word [undefined]. *)
Definition template (v : option string) : string := default "undefined" v.

(** Numbers are the integers here. Every integer between
    [-(2^53 - 1)] and [2^53 - 1] is a number of the language, and string
    concatenation prints such a number as its decimal numeral: digits
    without leading zero, after a minus sign when it is negative. Beyond
    that range an integer need not be a number, and a number is not always
    printed with all its digits. *)
Definition isSafeInteger (n : Z) : bool := (Z.abs n <=? 2 ^ 53 - 1)%Z.

Definition number_to_string (n : Z) : string :=
  NilZero.string_of_int (Z.to_int n).

(** The integer a decimal numeral stands for. *)
Definition number_of_string (s : string) : option Z :=
  Z.of_int <$> NilZero.int_of_string s.

(** ** [Map]: insertion-ordered, one entry per key *)

Module JsMap.
Section JsMap.
Context {K V : Type} `{EqDecision K}.

Definition t : Type := list (K * V).

Definition empty : t := [].

Fixpoint get (k : K) (m : t) : option V :=
match m with
| [] => None
| (k', v) :: r => if decide (k = k') then Some v else get k r
end.

(** [set] overwrites the value of an existing key where it stands and puts
    a new key last. *)
Fixpoint set (k : K) (v : V) (m : t) : t :=
match m with
| [] => [(k, v)]
| (k', v') :: r =>
    if decide (k = k') then (k, v) :: r else (k', v') :: set k v r
end.

Fixpoint delete (k : K) (m : t) : t :=
match m with
| [] => []
| (k', v') :: r =>
    if decide (k = k') then delete k r else (k', v') :: delete k r
end.

Definition values (m : t) : list V := m.*2.

End JsMap.
Global Arguments t : clear implicits.
End JsMap.

(** ** Methods: state and exceptions

    A method body runs on the fields of the object. A thrown exception ends
    the body and keeps what was written before it. *)

Inductive exn : Type :=
| TypeError (message : string).

Inductive completion (A : Type) : Type :=
| Return (a : A)
| Throw (e : exn).
Global Arguments Return {A} a.
Global Arguments Throw {A} e.

Definition M (S A : Type) : Type := S → completion A * S.

Global Instance M_ret {S} : MRet (M S) := λ A a s, (Return a, s).

Global Instance M_bind {S} : MBind (M S) := λ A B f m s,
  match m s with
  | (Return a, s') => f a s'
  | (Throw e, s') => (Throw e, s')
  end.

Definition gets {S A} (f : S → A) : M S A := λ s, (Return (f s), s).
Definition modify {S} (f : S → S) : M S unit := λ s, (Return tt, f s).
Definition throw {S A} (e : exn) : M S A := λ s, (Throw e, s).

(** The state a call leaves behind, and how it completed. *)
Definition exec {S A} (m : M S A) (s : S) : S := (m s).2.
Definition outcome {S A} (m : M S A) (s : S) : completion A := (m s).1.

(** A sequence of calls, each dispatched on its own: a call that throws
    does not stop the ones that follow. *)
Definition dispatch {S A} (calls : list (M S A)) (s : S) : S :=
  foldl (λ s c, exec c s) s calls.

(** ** Protocol records (package [rsp-client]) *)

Module Protocol.

Module ServerType.
Record t : Type := mk { id : string; visibleName : string }.
End ServerType.

Module ServerHandle.
Record t : Type := mk { id : string; type : ServerType.t }.
End ServerHandle.

(** Modelled from the spec: the declaration of [Protocol.DeployableState] is
    not part of the sources. It carries a reference (a name, which may be
    missing from a payload) and an integer state code. *)
Module DeployableState.
Record t : Type := mk { reference : option string; state : Z }.
End DeployableState.

(** Modelled from the spec: the declaration of [Protocol.ServerState] is not
    part of the sources. It carries the handle of its server, an integer
    run-state code and the ordered collection of its deployables. *)
Module ServerState.
Record t : Type := mk {
  server : ServerHandle.t;
  state : Z;
  deployableStates : list DeployableState.t
}.
End ServerState.

Module ServerProcessOutput.
Record t : Type := mk { server : ServerHandle.t; text : string }.
End ServerProcessOutput.

Module ServerBean.
Record t : Type := mk { location : string; typeCategory : option string }.
End ServerBean.

Module Status.
Record t : Type := mk { severity : Z; message : string }.
End Status.

End Protocol.

(** Modelled from the spec: the constants of [ServerState] in [rsp-client]
    are not part of the sources; the run-state codes are Unknown=0,
    Starting=1, Started=2, Stopping=3, Stopped=4. *)
Module ServerState.
Definition STARTING : Z := 1.
End ServerState.

(** A tree node is one of the three protocol objects. The provider tells
    them apart by probing properties, which are [undefined] on an object
    of another shape. *)
Inductive node : Type :=
| HandleNode (h : Protocol.ServerHandle.t)
| StateNode (s : Protocol.ServerState.t)
| DeployableNode (d : Protocol.DeployableState.t).

Definition node_deployableStates (item : node)
  : option (list Protocol.DeployableState.t) :=
match item with
| StateNode s => Some (Protocol.ServerState.deployableStates s)
| _ => None
end.

Definition node_id (item : node) : option string :=
match item with
| HandleNode h => Some (Protocol.ServerHandle.id h)
| _ => None
end.

Definition node_reference (item : node) : option string :=
match item with
| DeployableNode d => Protocol.DeployableState.reference d
| _ => None
end.

(** An array is truthy, also when empty; [undefined] is not. *)
Definition defined {A} (v : option A) : bool :=
match v with
| Some _ => true
| None => false
end.

(** ** Host objects (package [vscode]) *)

Module vscode.

Record OutputChannel : Type := mkChannel {
  name : string;
  content : string;
  visible : bool;
  disposed : bool
}.

(** The channels the window has created, addressed by their position. *)
Abbreviation window := (list OutputChannel).

Definition createOutputChannel (n : string) (w : window) : nat * window :=
  (length w, w ++ [mkChannel n "" false false]).

Definition append (text : string) (c : OutputChannel) : OutputChannel :=
  mkChannel (name c) (content c +:+ text) (visible c) (disposed c).

Definition clear (c : OutputChannel) : OutputChannel :=
  mkChannel (name c) "" (visible c) (disposed c).

Definition show (c : OutputChannel) : OutputChannel :=
  mkChannel (name c) (content c) true (disposed c).

Definition dispose (c : OutputChannel) : OutputChannel :=
  mkChannel (name c) (content c) false true.

Record TreeItem : Type := mkTreeItem {
  label : string;
  iconPath : string;
  contextValue : option string
}.

End vscode.

(** The icon of every item, a path relative to the directory of the
    module. *)
Definition server_light : string := "../../images/server-light.png".

(** The tables the constructor fills. *)
Definition runStateEnum_init : JsMap.t Z string :=
  JsMap.set 4%Z "Stopped" (JsMap.set 3%Z "Stopping" (JsMap.set 2%Z "Started"
    (JsMap.set 1%Z "Starting" (JsMap.set 0%Z "Unknown" JsMap.empty)))).

Definition publishStateEnum_init : JsMap.t Z string :=
  JsMap.set 6%Z "Unknown" (JsMap.set 5%Z "Remove" (JsMap.set 4%Z "Add"
    (JsMap.set 3%Z "Full" (JsMap.set 2%Z "Incremental"
      (JsMap.set 1%Z "None" JsMap.empty))))).

(** ** Promises and the server-creation workflow

    A promise is what it settles to. The workflow also records, in order,
    the requests it sends to the control service. *)

Inductive settled (A : Type) : Type :=
| Fulfilled (value : A)
| Rejected (reason : string).
Global Arguments Fulfilled {A} value.
Global Arguments Rejected {A} reason.

Inductive request : Type :=
| FindServerBeans (path : string)
| CreateServerAsync (bean : Protocol.ServerBean.t) (name : string).

Definition async (A : Type) : Type := list request * settled A.

Definition resolve {A} (value : A) : async A := ([], Fulfilled value).
Definition reject {A} (reason : string) : async A := ([], Rejected reason).

(** A promise of the host window: no request is sent. *)
Definition host {A} (p : settled A) : async A := ([], p).

(** A promise of the control service: the request is recorded. *)
Definition client {A} (r : request) (p : settled A) : async A := ([r], p).

(** [p.then(f)]: [f] runs on the value of a fulfilled [p], a rejection
    passes through. *)
Definition then_ {A B} (p : async A) (f : A → async B) : async B :=
  match p with
  | (sent, Fulfilled value) => let '(sent', r) := f value in (sent ++ sent', r)
  | (sent, Rejected reason) => (sent, Rejected reason)
  end.

(** White space is what [String.prototype.trim] removes: the characters
    U+0009 to U+000D and U+0020, of one byte each; U+00A0, of two bytes; and
    U+1680, U+2000 to U+200A, U+2028, U+2029, U+202F, U+205F, U+3000 and
    U+FEFF, of three bytes each. *)
Definition is_space1 (a : Ascii.ascii) : bool := Ascii.is_space a.

Definition is_space2 (a b : Ascii.ascii) : bool :=
  Ascii.eqb a "194"%char && Ascii.eqb b "160"%char.

(** The third byte of U+2000 to U+200A, U+2028, U+2029 and U+202F, after
    the bytes 226 and 128. *)
Definition is_space_e280 (c : Ascii.ascii) : bool :=
  ((128 <=? Ascii.N_of_ascii c)%N && (Ascii.N_of_ascii c <=? 138)%N)
  || Ascii.eqb c "168"%char || Ascii.eqb c "169"%char || Ascii.eqb c "175"%char.

Definition is_space3 (a b c : Ascii.ascii) : bool :=
  if Ascii.eqb a "225"%char then Ascii.eqb b "154"%char && Ascii.eqb c "128"%char
  else if Ascii.eqb a "226"%char then
    (Ascii.eqb b "128"%char && is_space_e280 c)
    || (Ascii.eqb b "129"%char && Ascii.eqb c "159"%char)
  else if Ascii.eqb a "227"%char then Ascii.eqb b "128"%char && Ascii.eqb c "128"%char
  else if Ascii.eqb a "239"%char then Ascii.eqb b "187"%char && Ascii.eqb c "191"%char
  else false.

(** The strings made of white space only. *)
Inductive blank : string → Prop :=
| blank_empty : blank ""
| blank_1 a r : is_space1 a = true → blank r → blank (String a r)
| blank_2 a b r :
    is_space2 a b = true → blank r → blank (String a (String b r))
| blank_3 a b c r :
    is_space3 a b c = true → blank r →
    blank (String a (String b (String c r))).

Fixpoint trimStart (s : string) : string :=
match s with
| EmptyString => s
| String a r1 =>
    if is_space1 a then trimStart r1
    else match r1 with
         | EmptyString => s
         | String b r2 =>
             if is_space2 a b then trimStart r2
             else match r2 with
                  | EmptyString => s
                  | String c r3 =>
                      if is_space3 a b c then trimStart r3 else s
                  end
         end
end.

(** Whether white space is all there is from the start of a string to its
    end. *)
Definition all_space (s : string) : bool := String.eqb (trimStart s) "".

(** [trimEnd] drops the longest end of the string that is white space. *)
Fixpoint trimEnd (s : string) : string :=
match s with
| EmptyString => s
| String a r => if all_space s then "" else String a (trimEnd r)
end.

Definition trim (s : string) : string := trimEnd (trimStart s).

Module Uri.
Record t : Type := mk { fsPath : string }.
End Uri.

Record OpenDialogOptions : Type := mkOpenDialogOptions {
  canSelectFiles : bool;
  canSelectMany : bool;
  canSelectFolders : bool;
  openLabel : string
}.

Record InputBoxOptions : Type := mkInputBoxOptions {
  prompt : string;
  placeHolder : string;
  validateInput : string → option string
}.

(** The options of the folder dialog. *)
Definition locationOptions : OpenDialogOptions :=
  mkOpenDialogOptions false false true "Select desired server location".

Section Workflow.

(** The dialogs of the window and the two requests of the control service
    ([RSPClient]) that the workflow uses. [findServerBeans] may answer
    without a list. *)
Variable showOpenDialog : OpenDialogOptions → settled (option (list Uri.t)).
Variable showInputBox : InputBoxOptions → settled (option string).
Variable findServerBeans :
  string → settled (option (list Protocol.ServerBean.t)).
Variable createServerAsync :
  Protocol.ServerBean.t → string → settled Protocol.Status.t.

(** Whether the registry of the provider already has the name: the lookup
    [this.servers.get(value)] or [this.serverStatus.get(value)]. *)
Variable registered : string → bool.

Definition validate (value : string) : option string :=
  if negb (truthy (Some value)) || (String.length (trim value) =? 0)%nat
  then Some "Cannot set empty server name"
  else if registered value then Some "Cannot set duplicate server name"
  else None.

Definition selectLocation : async (option (list Uri.t)) :=
  host (showOpenDialog locationOptions).

Definition findBeans (folders : option (list Uri.t))
  : async (option (list Protocol.ServerBean.t)) :=
  match folders with
  | Some [folder] =>
      client (FindServerBeans (Uri.fsPath folder))
        (findServerBeans (Uri.fsPath folder))
  | _ => resolve None
  end.

(** The test [serverBeans && serverBeans.length > 0 &&
    serverBeans[0].typeCategory && serverBeans[0].typeCategory !== 'UNKNOWN'],
    giving [serverBeans[0]] when it passes. *)
Definition detected (serverBeans : option (list Protocol.ServerBean.t))
  : option Protocol.ServerBean.t :=
  match serverBeans with
  | Some (bean :: _) =>
      if truthy (Protocol.ServerBean.typeCategory bean)
         && negb (bool_decide
              (Protocol.ServerBean.typeCategory bean = Some "UNKNOWN"))
      then Some bean
      else None
  | _ => None
  end.

Definition promptName (serverBeans : option (list Protocol.ServerBean.t))
  : async (option (option string * Protocol.ServerBean.t)) :=
  match detected serverBeans with
  | Some bean =>
      then_ (host (showInputBox
               (mkInputBoxOptions "Provide the server name" "Server name"
                  validate)))
        (λ value, resolve (Some (value, bean)))
  | None =>
      if defined serverBeans
      then reject "Cannot detect server in selected location!"
      else resolve None
  end.

Definition createServer
  (data : option (option string * Protocol.ServerBean.t))
  : async (option Protocol.Status.t) :=
  match data with
  | Some (Some name, bean) =>
      if truthy (Some name) then
        then_ (client (CreateServerAsync bean name)
                 (createServerAsync bean name))
          (λ status,
             if (Protocol.Status.severity status >? 0)%Z
             then reject (Protocol.Status.message status)
             else resolve (Some status))
      else resolve None
  | _ => resolve None
  end.

Definition addLocation : async (option Protocol.Status.t) :=
  then_ (then_ (then_ selectLocation findBeans) promptName) createServer.

End Workflow.

(** The first bean is missing, or its category is missing, empty or
    [UNKNOWN]. *)
Definition undetected (beans : list Protocol.ServerBean.t) : Prop :=
  match beans with
  | [] => True
  | bean :: _ =>
      truthy (Protocol.ServerBean.typeCategory bean) = false
      ∨ Protocol.ServerBean.typeCategory bean = Some "UNKNOWN"
  end.

(** ** The handle-tracking variant *)

Module HandleTracking.

(** The fields of the provider, then what it reaches in the host: the
    events its emitter has fired (an absent argument is [None]), the
    channels of the window and the [showChannelOnServerOutput] setting. *)
Record provider : Type := mkProvider {
  servers : JsMap.t string Protocol.ServerHandle.t;
  serverStatus : JsMap.t string Protocol.ServerState.t;
  serverOutputChannels : JsMap.t string nat;
  runStateEnum : JsMap.t Z string;
  publishStateEnum : JsMap.t Z string;
  onDidChangeTreeData : list (option Protocol.ServerHandle.t);
  channels : vscode.window;
  showChannelOnServerOutput : bool
}.

Definition set_servers
  (f : JsMap.t string Protocol.ServerHandle.t → JsMap.t string Protocol.ServerHandle.t)
  (p : provider) : provider :=
  mkProvider (f (servers p)) (serverStatus p) (serverOutputChannels p)
    (runStateEnum p) (publishStateEnum p) (onDidChangeTreeData p)
    (channels p) (showChannelOnServerOutput p).

Definition set_serverStatus
  (f : JsMap.t string Protocol.ServerState.t → JsMap.t string Protocol.ServerState.t)
  (p : provider) : provider :=
  mkProvider (servers p) (f (serverStatus p)) (serverOutputChannels p)
    (runStateEnum p) (publishStateEnum p) (onDidChangeTreeData p)
    (channels p) (showChannelOnServerOutput p).

Definition set_serverOutputChannels
  (f : JsMap.t string nat → JsMap.t string nat) (p : provider) : provider :=
  mkProvider (servers p) (serverStatus p) (f (serverOutputChannels p))
    (runStateEnum p) (publishStateEnum p) (onDidChangeTreeData p)
    (channels p) (showChannelOnServerOutput p).

Definition set_onDidChangeTreeData
  (f : list (option Protocol.ServerHandle.t) → list (option Protocol.ServerHandle.t))
  (p : provider) : provider :=
  mkProvider (servers p) (serverStatus p) (serverOutputChannels p)
    (runStateEnum p) (publishStateEnum p) (f (onDidChangeTreeData p))
    (channels p) (showChannelOnServerOutput p).

Definition set_channels (f : vscode.window → vscode.window) (p : provider)
  : provider :=
  mkProvider (servers p) (serverStatus p) (serverOutputChannels p)
    (runStateEnum p) (publishStateEnum p) (onDidChangeTreeData p)
    (f (channels p)) (showChannelOnServerOutput p).

(** [window.createOutputChannel] *)
Definition createOutputChannel (n : string) : M provider nat := λ p,
  let '(c, w) := vscode.createOutputChannel n (channels p) in
  (Return c, set_channels (λ _, w) p).

(** A method of the channel behind a reference. *)
Definition on_channel (f : vscode.OutputChannel → vscode.OutputChannel)
  (c : nat) : M provider unit :=
  modify (set_channels (alter f c)).

Definition constructor (w : vscode.window) (show : bool) : provider :=
  mkProvider JsMap.empty JsMap.empty JsMap.empty
    runStateEnum_init publishStateEnum_init [] w show.

Definition refresh (data : option Protocol.ServerHandle.t) : M provider unit :=
  modify (set_onDidChangeTreeData (λ fired, fired ++ [data])).

Definition insertServer (handle : Protocol.ServerHandle.t) : M provider unit :=
  modify (set_servers (JsMap.set (Protocol.ServerHandle.id handle) handle));;
  refresh None.

(** Reading [value.id] when [servers] has no handle for the event throws:
    [value] is [undefined]. *)
Definition updateServer (event : Protocol.ServerState.t) : M provider unit :=
  value ← gets (λ p, JsMap.get
    (Protocol.ServerHandle.id (Protocol.ServerState.server event)) (servers p));
  match value with
  | None => throw (TypeError "Cannot read property 'id' of undefined")
  | Some value =>
      modify (set_serverStatus
        (JsMap.set (Protocol.ServerHandle.id value) event));;
      refresh (Some value);;
      channel ← gets (λ p, JsMap.get (Protocol.ServerHandle.id value)
        (serverOutputChannels p));
      match channel with
      | Some c =>
          if (Protocol.ServerState.state event =? ServerState.STARTING)%Z
          then on_channel vscode.clear c
          else mret tt
      | None => mret tt
      end
  end.

Definition removeServer (handle : Protocol.ServerHandle.t) : M provider unit :=
  modify (set_servers (JsMap.delete (Protocol.ServerHandle.id handle)));;
  modify (set_serverStatus (JsMap.delete (Protocol.ServerHandle.id handle)));;
  refresh None;;
  channel ← gets (λ p, JsMap.get (Protocol.ServerHandle.id handle)
    (serverOutputChannels p));
  modify (set_serverOutputChannels
    (JsMap.delete (Protocol.ServerHandle.id handle)));;
  match channel with
  | Some c => on_channel vscode.clear c;; on_channel vscode.dispose c
  | None => mret tt
  end.

Definition addServerOutput (output : Protocol.ServerProcessOutput.t)
  : M provider unit :=
  let id := Protocol.ServerHandle.id (Protocol.ServerProcessOutput.server output) in
  channel ← gets (λ p, JsMap.get id (serverOutputChannels p));
  channel ← match channel with
            | None =>
                c ← createOutputChannel ("Server: " +:+ id);
                modify (set_serverOutputChannels (JsMap.set id c));;
                mret c
            | Some c => mret c
            end;
  on_channel (vscode.append (Protocol.ServerProcessOutput.text output)) channel;;
  show ← gets showChannelOnServerOutput;
  if (show : bool) then on_channel vscode.show channel else mret tt.

Definition showOutput (server : Protocol.ServerHandle.t) : M provider unit :=
  channel ← gets (λ p, JsMap.get (Protocol.ServerHandle.id server)
    (serverOutputChannels p));
  match channel with
  | Some c => on_channel vscode.show c
  | None => mret tt
  end.

(** [getTreeItem] and [getChildren] only read the provider; [None] is the
    [undefined] a body returns when it falls off its end. *)
Definition getTreeItem (item : node) (p : provider) : option vscode.TreeItem :=
  if defined (node_deployableStates item) then None
  else if truthy (node_id item) then
    match item with
    | HandleNode item2 =>
        let id1 := Protocol.ServerHandle.id item2 in
        let status := JsMap.get id1 (serverStatus p) in
        let runState := match status with
                        | None => 0%Z
                        | Some status => Protocol.ServerState.state status
                        end in
        Some (vscode.mkTreeItem
          (id1 +:+ ":" +:+
           Protocol.ServerType.visibleName (Protocol.ServerHandle.type item2) +:+
           "(" +:+ template (JsMap.get runState (runStateEnum p)) +:+ ")")
          server_light
          (JsMap.get runState (runStateEnum p)))
    | _ => None
    end
  else None.

Definition getChildren (element : option node) (p : provider)
  : option (list node) :=
  match element with
  | None => Some (HandleNode <$> JsMap.values (servers p))
  | Some _ => None
  end.

Definition addLocation showOpenDialog showInputBox findServerBeans
  createServerAsync (p : provider) : async (option Protocol.Status.t) :=
  addLocation showOpenDialog showInputBox findServerBeans createServerAsync
    (λ value, defined (JsMap.get value (servers p))).

End HandleTracking.

(** ** The state-only variant *)

Module StateOnly.

Record provider : Type := mkProvider {
  serverStatus : JsMap.t string Protocol.ServerState.t;
  serverOutputChannels : JsMap.t string nat;
  runStateEnum : JsMap.t Z string;
  publishStateEnum : JsMap.t Z string;
  onDidChangeTreeData : list (option Protocol.ServerState.t);
  channels : vscode.window;
  showChannelOnServerOutput : bool
}.

Definition set_serverStatus
  (f : JsMap.t string Protocol.ServerState.t → JsMap.t string Protocol.ServerState.t)
  (p : provider) : provider :=
  mkProvider (f (serverStatus p)) (serverOutputChannels p)
    (runStateEnum p) (publishStateEnum p) (onDidChangeTreeData p)
    (channels p) (showChannelOnServerOutput p).

Definition set_serverOutputChannels
  (f : JsMap.t string nat → JsMap.t string nat) (p : provider) : provider :=
  mkProvider (serverStatus p) (f (serverOutputChannels p))
    (runStateEnum p) (publishStateEnum p) (onDidChangeTreeData p)
    (channels p) (showChannelOnServerOutput p).

Definition set_onDidChangeTreeData
  (f : list (option Protocol.ServerState.t) → list (option Protocol.ServerState.t))
  (p : provider) : provider :=
  mkProvider (serverStatus p) (serverOutputChannels p)
    (runStateEnum p) (publishStateEnum p) (f (onDidChangeTreeData p))
    (channels p) (showChannelOnServerOutput p).

Definition set_channels (f : vscode.window → vscode.window) (p : provider)
  : provider :=
  mkProvider (serverStatus p) (serverOutputChannels p)
    (runStateEnum p) (publishStateEnum p) (onDidChangeTreeData p)
    (f (channels p)) (showChannelOnServerOutput p).

Definition createOutputChannel (n : string) : M provider nat := λ p,
  let '(c, w) := vscode.createOutputChannel n (channels p) in
  (Return c, set_channels (λ _, w) p).

Definition on_channel (f : vscode.OutputChannel → vscode.OutputChannel)
  (c : nat) : M provider unit :=
  modify (set_channels (alter f c)).

Definition constructor (w : vscode.window) (show : bool) : provider :=
  mkProvider JsMap.empty JsMap.empty
    runStateEnum_init publishStateEnum_init [] w show.

Definition refresh (data : option Protocol.ServerState.t) : M provider unit :=
  modify (set_onDidChangeTreeData (λ fired, fired ++ [data])).

Definition insertServer (handle : Protocol.ServerHandle.t) : M provider unit :=
  refresh None.

Definition updateServer (event : Protocol.ServerState.t) : M provider unit :=
  let id := Protocol.ServerHandle.id (Protocol.ServerState.server event) in
  modify (set_serverStatus (JsMap.set id event));;
  refresh (Some event);;
  channel ← gets (λ p, JsMap.get id (serverOutputChannels p));
  match channel with
  | Some c =>
      if (Protocol.ServerState.state event =? ServerState.STARTING)%Z
      then on_channel vscode.clear c
      else mret tt
  | None => mret tt
  end.

Definition removeServer (handle : Protocol.ServerHandle.t) : M provider unit :=
  modify (set_serverStatus (JsMap.delete (Protocol.ServerHandle.id handle)));;
  refresh None;;
  channel ← gets (λ p, JsMap.get (Protocol.ServerHandle.id handle)
    (serverOutputChannels p));
  modify (set_serverOutputChannels
    (JsMap.delete (Protocol.ServerHandle.id handle)));;
  match channel with
  | Some c => on_channel vscode.clear c;; on_channel vscode.dispose c
  | None => mret tt
  end.

Definition addServerOutput (output : Protocol.ServerProcessOutput.t)
  : M provider unit :=
  let id := Protocol.ServerHandle.id (Protocol.ServerProcessOutput.server output) in
  channel ← gets (λ p, JsMap.get id (serverOutputChannels p));
  channel ← match channel with
            | None =>
                c ← createOutputChannel ("Server: " +:+ id);
                modify (set_serverOutputChannels (JsMap.set id c));;
                mret c
            | Some c => mret c
            end;
  on_channel (vscode.append (Protocol.ServerProcessOutput.text output)) channel;;
  show ← gets showChannelOnServerOutput;
  if (show : bool) then on_channel vscode.show channel else mret tt.

Definition showOutput (server : Protocol.ServerHandle.t) : M provider unit :=
  channel ← gets (λ p, JsMap.get (Protocol.ServerHandle.id server)
    (serverOutputChannels p));
  match channel with
  | Some c => on_channel vscode.show c
  | None => mret tt
  end.

Definition addLocation showOpenDialog showInputBox findServerBeans
  createServerAsync (p : provider) : async (option Protocol.Status.t) :=
  addLocation showOpenDialog showInputBox findServerBeans createServerAsync
    (λ value, defined (JsMap.get value (serverStatus p))).

Definition getTreeItem (item : node) (p : provider) : option vscode.TreeItem :=
  if defined (node_deployableStates item) then
    match item with
    | StateNode item =>
        let item2 := Protocol.ServerState.server item in
        let id1 := Protocol.ServerHandle.id item2 in
        let status := JsMap.get id1 (serverStatus p) in
        let runState := match status with
                        | None => 0%Z
                        | Some status => Protocol.ServerState.state status
                        end in
        Some (vscode.mkTreeItem
          (id1 +:+ ":" +:+
           Protocol.ServerType.visibleName (Protocol.ServerHandle.type item2) +:+
           "(" +:+ template (JsMap.get runState (runStateEnum p)) +:+ ")")
          server_light
          (JsMap.get runState (runStateEnum p)))
    | _ => None
    end
  else if truthy (node_reference item) then
    match item with
    | DeployableNode item2 =>
        Some (vscode.mkTreeItem
          ("I am a deployment: " +:+
           number_to_string (Protocol.DeployableState.state item2))
          server_light
          (JsMap.get (Protocol.DeployableState.state item2) (runStateEnum p)))
    | _ => None
    end
  else None.

Definition getChildren (element : option node) (p : provider)
  : option (list node) :=
  match element with
  | None => Some (StateNode <$> JsMap.values (serverStatus p))
  | Some element =>
      match node_deployableStates element with
      | Some deployableStates => Some (DeployableNode <$> deployableStates)
      | None => None
      end
  end.

End StateOnly.

(** ** Sample servers, deployables and collaborators *)

Definition tomcat : Protocol.ServerHandle.t :=
  Protocol.ServerHandle.mk "s1" (Protocol.ServerType.mk "tomcat" "Tomcat").

Definition wildfly : Protocol.ServerHandle.t :=
  Protocol.ServerHandle.mk "s2" (Protocol.ServerType.mk "wildfly" "WildFly").

Definition app_war : Protocol.DeployableState.t :=
  Protocol.DeployableState.mk (Some "app.war") 3.

Definition other_war : Protocol.DeployableState.t :=
  Protocol.DeployableState.mk (Some "other.war") 3.

Definition started (h : Protocol.ServerHandle.t) : Protocol.ServerState.t :=
  Protocol.ServerState.mk h 2 [app_war; other_war].

Definition starting (h : Protocol.ServerHandle.t) : Protocol.ServerState.t :=
  Protocol.ServerState.mk h 1 [].

Definition says (h : Protocol.ServerHandle.t) (text : string)
  : Protocol.ServerProcessOutput.t :=
  Protocol.ServerProcessOutput.mk h text.

Definition srv_folder : Uri.t := Uri.mk "/opt/srv".

Definition pick_srv : OpenDialogOptions → settled (option (list Uri.t)) :=
  λ _, Fulfilled (Some [srv_folder]).

Definition no_name : InputBoxOptions → settled (option string) :=
  λ _, Fulfilled None.

Definition created : Protocol.ServerBean.t → string → settled Protocol.Status.t :=
  λ _ _, Fulfilled (Protocol.Status.mk 0 "ok").

Definition unknown_bean : Protocol.ServerBean.t :=
  Protocol.ServerBean.mk "/opt/srv" (Some "UNKNOWN").

Definition eap_bean : Protocol.ServerBean.t :=
  Protocol.ServerBean.mk "/opt/srv" (Some "EAP").

(** A no-break space (U+00A0), an ideographic space (U+3000) and a
    space. *)
Definition spaces : string :=
  String "194" (String "160" (String "227" (String "128" (String "128" " ")))).

(** ** Histories of calls

    The provider is built once and then driven by the events of the control
    service and the commands of the user, one call after the other. *)

Inductive method : Type :=
| InsertServer (handle : Protocol.ServerHandle.t)
| UpdateServer (event : Protocol.ServerState.t)
| RemoveServer (handle : Protocol.ServerHandle.t)
| AddServerOutput (output : Protocol.ServerProcessOutput.t)
| ShowOutput (server : Protocol.ServerHandle.t).

(** The events of a sequence that are about the server [id], and the last
    of them. *)
Definition about (id : string) (events : list Protocol.ServerState.t)
  : list Protocol.ServerState.t :=
  filter (λ e, Protocol.ServerHandle.id (Protocol.ServerState.server e) = id)
    events.

Definition last_event (id : string) (events : list Protocol.ServerState.t)
  : option Protocol.ServerState.t :=
  last (about id events).

Module HandleTrackingHistory.
Import HandleTracking.

Definition call (m : method) : M provider unit :=
  match m with
  | InsertServer handle => insertServer handle
  | UpdateServer event => updateServer event
  | RemoveServer handle => removeServer handle
  | AddServerOutput output => addServerOutput output
  | ShowOutput server => showOutput server
  end.

Inductive reachable : provider → Prop :=
| reachable_new w show : reachable (constructor w show)
| reachable_call m p : reachable p → reachable (exec (call m) p).

(** Every handle is filed under its own identifier. *)
Definition handles_keyed (p : provider) : Prop :=
  ∀ k h, JsMap.get k (servers p) = Some h → Protocol.ServerHandle.id h = k.

End HandleTrackingHistory.

Module StateOnlyHistory.
Import StateOnly.

Definition call (m : method) : M provider unit :=
  match m with
  | InsertServer handle => insertServer handle
  | UpdateServer event => updateServer event
  | RemoveServer handle => removeServer handle
  | AddServerOutput output => addServerOutput output
  | ShowOutput server => showOutput server
  end.

Inductive reachable : provider → Prop :=
| reachable_new w show : reachable (constructor w show)
| reachable_call m p : reachable p → reachable (exec (call m) p).

(** Every state is filed under the identifier of its server. *)
Definition states_keyed (p : provider) : Prop :=
  ∀ k s, (k, s) ∈ serverStatus p →
         Protocol.ServerHandle.id (Protocol.ServerState.server s) = k.

End StateOnlyHistory.

(** ** Start-up, channel tables and the texts of a server

    [forEach] runs a callback on the elements of an array in turn; an
    exception of the callback ends the loop. *)

Fixpoint forEach {S A} (f : A → M S unit) (array : list A) : M S unit :=
match array with
| [] => mret tt
| x :: rest => f x;; forEach f rest
end.

(** The callback the constructor registers on [client.getServerHandles()]. *)
Module HandleTrackingStartup.
Definition onServerHandles (servers : list Protocol.ServerHandle.t)
  : M HandleTracking.provider unit :=
  forEach HandleTracking.insertServer servers.
End HandleTrackingStartup.

Module StateOnlyStartup.
Definition onServerHandles (servers : list Protocol.ServerHandle.t)
  : M StateOnly.provider unit :=
  forEach StateOnly.insertServer servers.
End StateOnlyStartup.

(** The last handle of a list with the identifier [id]. *)
Definition last_handle (id : string) (handles : list Protocol.ServerHandle.t)
  : option Protocol.ServerHandle.t :=
  last (filter (λ h, Protocol.ServerHandle.id h = id) handles).

(** A channel table over the channels of the window: every reference of the
    table is to a channel of the window that is not disposed and carries
    the name of its server, and no two servers share a channel. *)
Definition channels_wf (table : JsMap.t string nat)
  (w : list vscode.OutputChannel) : Prop :=
  (∀ id c, JsMap.get id table = Some c →
     ∃ ch, w !! c = Some ch
       ∧ vscode.disposed ch = false
       ∧ vscode.name ch = "Server: " +:+ id)
  ∧ (∀ id id' c, JsMap.get id table = Some c → JsMap.get id' table = Some c →
       id = id').

(** What the channel of a server holds; nothing when it has none. *)
Definition channel_text (table : JsMap.t string nat)
  (w : list vscode.OutputChannel) (id : string) : string :=
  match JsMap.get id table with
  | Some c =>
      match w !! c with
      | Some ch => vscode.content ch
      | None => ""
      end
  | None => ""
  end.

(** The texts of the outputs of the server [id], in their order. *)
Fixpoint texts_of (id : string) (outputs : list Protocol.ServerProcessOutput.t)
  : string :=
match outputs with
| [] => ""
| output :: rest =>
    if decide (Protocol.ServerHandle.id
                 (Protocol.ServerProcessOutput.server output) = id)
    then Protocol.ServerProcessOutput.text output +:+ texts_of id rest
    else texts_of id rest
end.

(** The label of a run-state code in the table of the constructor. *)
Definition run_state_label (code : Z) : option string :=
  JsMap.get code runStateEnum_init.

(** The server a root node stands for. *)
Definition node_server (item : node) : option string :=
match item with
| HandleNode h => Some (Protocol.ServerHandle.id h)
| StateNode s =>
    Some (Protocol.ServerHandle.id (Protocol.ServerState.server s))
| DeployableNode _ => None
end.

(** The servers of the roots, in the order of the roots. *)
Definition root_servers (roots : option (list node))
  : option (list (option string)) :=
match roots with
| Some roots => Some (node_server <$> roots)
| None => None
end.

(** The run-state code [getTreeItem] reads for a server: that of the state
    the registry holds, 0 when it holds none. *)
Definition registry_code (status : option Protocol.ServerState.t) : Z :=
match status with
| Some status => Protocol.ServerState.state status
| None => 0%Z
end.

(** A method of a channel that keeps its name and whether it is disposed. *)
Definition keeps (f : vscode.OutputChannel → vscode.OutputChannel) : Prop :=
  ∀ ch, vscode.disposed (f ch) = vscode.disposed ch
        ∧ vscode.name (f ch) = vscode.name ch.

(** Whether the channel of a server is in view; not when it has none. *)
Definition channel_visible (table : JsMap.t string nat)
  (w : list vscode.OutputChannel) (id : string) : bool :=
  match JsMap.get id table with
  | Some c =>
      match w !! c with
      | Some ch => vscode.visible ch
      | None => false
      end
  | None => false
  end.

(** * Properties *)

(** ** Facts about [JsMap] *)

Module JsMapFacts.
Import JsMap.
Section JsMapFacts.
Context {K V : Type} `{EqDecision K}.
Implicit Types (k : K) (v : V) (m : JsMap.t K V).

Lemma get_set_eq k v m : get k (set k v m) = Some v.
Proof.
induction m as [|[k' v'] r IH]; simpl.
- by rewrite decide_True.
- destruct (decide (k = k')) as [->|Hne]; simpl.
  + by rewrite decide_True.
  + by rewrite decide_False.
Qed.

Lemma get_set_ne k k' v m : k ≠ k' → get k' (set k v m) = get k' m.
Proof.
intros Hne. induction m as [|[k0 v0] r IH]; simpl.
- by rewrite decide_False.
- destruct (decide (k = k0)) as [->|Hk]; simpl.
  + by rewrite !decide_False.
  + by rewrite IH.
Qed.

Lemma get_delete_eq k m : get k (delete k m) = None.
Proof.
induction m as [|[k' v'] r IH]; simpl; [done|].
destruct (decide (k = k')) as [->|Hne]; simpl; [done|].
by rewrite decide_False.
Qed.

Lemma get_delete_ne k k' m : k ≠ k' → get k' (delete k m) = get k' m.
Proof.
intros Hne. induction m as [|[k0 v0] r IH]; simpl; [done|].
destruct (decide (k = k0)) as [->|Hk]; simpl.
- by rewrite decide_False.
- by rewrite IH.
Qed.

Lemma delete_absent k m : get k m = None → delete k m = m.
Proof.
induction m as [|[k' v'] r IH]; simpl; [done|].
destruct (decide (k = k')); [done|]. intros Hr. by rewrite IH.
Qed.

Lemma values_set_fresh k v m :
  get k m = None → values (set k v m) = values m ++ [v].
Proof.
unfold values. induction m as [|[k' v'] r IH]; simpl; [done|].
destruct (decide (k = k')); [done|]. intros Hr. simpl. f_equal. by apply IH.
Qed.

Lemma elem_of_values_get k v m : get k m = Some v → v ∈ values m.
Proof.
unfold values. induction m as [|[k' v'] r IH]; simpl; [done|].
destruct (decide (k = k')).
- intros [= ->]. left.
- intros Hr. right. by apply IH.
Qed.

Lemma get_None_not_elem k v m : get k m = None → (k, v) ∉ m.
Proof.
induction m as [|[k' v'] r IH]; simpl; [intros _; apply not_elem_of_nil|].
destruct (decide (k = k')) as [->|Hne]; [done|].
intros Hr [[= ? ?]|Hin]%elem_of_cons; [done|]. by apply IH.
Qed.

Lemma elem_of_set k v k' v' m :
  (k', v') ∈ set k v m → (k', v') = (k, v) ∨ (k', v') ∈ m.
Proof.
induction m as [|[k0 v0] r IH]; simpl.
- intros ->%list_elem_of_singleton. by left.
- destruct (decide (k = k0)) as [->|Hne].
  + intros [->|Hin]%elem_of_cons; [by left|]. right. by right.
  + intros [->|Hin]%elem_of_cons; [right; left|].
    destruct (IH Hin) as [->|Hr]; [by left|]. right. by right.
Qed.

Lemma elem_of_delete k k' v' m : (k', v') ∈ delete k m → (k', v') ∈ m.
Proof.
induction m as [|[k0 v0] r IH]; simpl; [done|].
destruct (decide (k = k0)) as [->|Hne].
- intros Hin. right. by apply IH.
- intros [->|Hin]%elem_of_cons; [left|]. right. by apply IH.
Qed.

Lemma elem_of_values v m : v ∈ values m → ∃ k, (k, v) ∈ m.
Proof.
unfold values. intros ([k v'] & -> & Hin)%list_elem_of_fmap. by exists k.
Qed.

End JsMapFacts.
End JsMapFacts.
Import JsMapFacts.

(** Unfolds the monad so that a method becomes a function of the fields. *)
Ltac run_method :=
  cbv [exec outcome mbind M_bind mret M_ret gets modify throw
       HandleTrackingHistory.call HandleTracking.insertServer
       HandleTracking.updateServer HandleTracking.removeServer
       HandleTracking.addServerOutput HandleTracking.showOutput
       HandleTracking.refresh HandleTracking.on_channel
       HandleTracking.createOutputChannel
       StateOnlyHistory.call StateOnly.insertServer
       StateOnly.updateServer StateOnly.removeServer
       StateOnly.addServerOutput StateOnly.showOutput
       StateOnly.refresh StateOnly.on_channel
       StateOnly.createOutputChannel];
  simpl.

Lemma dispatch_cons {S A} (c : M S A) (cs : list (M S A)) (s : S) :
  dispatch (c :: cs) s = dispatch cs (exec c s).
Proof. reflexivity. Qed.

Lemma dispatch_nil {S A} (s : S) : dispatch (@nil (M S A)) s = s.
Proof. reflexivity. Qed.

Lemma dispatch_app {S A} (cs1 cs2 : list (M S A)) (s : S) :
  dispatch (cs1 ++ cs2) s = dispatch cs2 (dispatch cs1 s).
Proof. unfold dispatch. by rewrite foldl_app. Qed.

Lemma last_event_cons id e events :
  last_event id (e :: events) =
    match last_event id events with
    | Some e' => Some e'
    | None =>
        if decide (Protocol.ServerHandle.id (Protocol.ServerState.server e) = id)
        then Some e else None
    end.
Proof.
unfold last_event, about. rewrite filter_cons.
destruct (decide (Protocol.ServerHandle.id (Protocol.ServerState.server e) = id));
  [|by destruct (last _)].
rewrite last_cons. by destruct (last _).
Qed.

(** ** What the calls keep *)

Section HandleTrackingFacts.
Import HandleTracking HandleTrackingHistory.

Lemma ht_runStateEnum_call m p :
  runStateEnum (exec (call m) p) = runStateEnum p.
Proof. destruct m; run_method; repeat case_match; simplify_eq/=; done. Qed.

Lemma ht_reachable_runStateEnum p :
  reachable p → runStateEnum p = runStateEnum_init.
Proof.
induction 1 as [w show|m p _ IH]; [done|]. by rewrite ht_runStateEnum_call.
Qed.

Lemma ht_handles_keyed_call m p :
  handles_keyed p → handles_keyed (exec (call m) p).
Proof.
intros Hp k h. destruct m as [handle|event|handle|output|server];
  run_method; repeat case_match; simplify_eq/=; try apply Hp.
- destruct (decide (Protocol.ServerHandle.id handle = k)) as [<-|Hne].
  + rewrite get_set_eq. by intros [= ->].
  + rewrite get_set_ne by done. apply Hp.
- destruct (decide (Protocol.ServerHandle.id handle = k)) as [<-|Hne].
  + by rewrite get_delete_eq.
  + rewrite get_delete_ne by done. apply Hp.
- destruct (decide (Protocol.ServerHandle.id handle = k)) as [<-|Hne].
  + by rewrite get_delete_eq.
  + rewrite get_delete_ne by done. apply Hp.
Qed.

Lemma ht_reachable_handles_keyed p : reachable p → handles_keyed p.
Proof.
induction 1 as [w show|m p _ IH]; [by intros k h|].
by apply ht_handles_keyed_call.
Qed.

(** When the handle of the event is missing, the call throws and nothing
    has been written. *)
Lemma ht_updateServer_unknown event p :
  JsMap.get (Protocol.ServerHandle.id (Protocol.ServerState.server event))
    (servers p) = None →
  updateServer event p
    = (Throw (TypeError "Cannot read property 'id' of undefined"), p).
Proof. intros Hget. run_method. by rewrite Hget. Qed.

(** When the handle is there, the call returns; the state is filed under
    the identifier of the handle and one event is fired for the handle. *)
Lemma ht_updateServer_known event value p :
  JsMap.get (Protocol.ServerHandle.id (Protocol.ServerState.server event))
    (servers p) = Some value →
  outcome (updateServer event) p = Return tt
  ∧ servers (exec (updateServer event) p) = servers p
  ∧ serverStatus (exec (updateServer event) p)
      = JsMap.set (Protocol.ServerHandle.id value) event (serverStatus p)
  ∧ onDidChangeTreeData (exec (updateServer event) p)
      = onDidChangeTreeData p ++ [Some value]
  ∧ serverOutputChannels (exec (updateServer event) p)
      = serverOutputChannels p.
Proof.
intros Hget. run_method. rewrite Hget. simpl.
repeat case_match; done.
Qed.

End HandleTrackingFacts.

Section StateOnlyFacts.
Import StateOnly StateOnlyHistory.

Lemma so_runStateEnum_call m p :
  runStateEnum (exec (call m) p) = runStateEnum p.
Proof. destruct m; run_method; repeat case_match; simplify_eq/=; done. Qed.

Lemma so_reachable_runStateEnum p :
  reachable p → runStateEnum p = runStateEnum_init.
Proof.
induction 1 as [w show|m p _ IH]; [done|]. by rewrite so_runStateEnum_call.
Qed.

Lemma so_updateServer event p :
  outcome (updateServer event) p = Return tt
  ∧ serverStatus (exec (updateServer event) p)
      = JsMap.set (Protocol.ServerHandle.id (Protocol.ServerState.server event))
          event (serverStatus p)
  ∧ onDidChangeTreeData (exec (updateServer event) p)
      = onDidChangeTreeData p ++ [Some event]
  ∧ serverOutputChannels (exec (updateServer event) p)
      = serverOutputChannels p.
Proof. run_method. repeat case_match; done. Qed.

Lemma so_states_keyed_call m p : states_keyed p → states_keyed (exec (call m) p).
Proof.
intros Hp k s. destruct m as [handle|event|handle|output|server];
  run_method; repeat case_match; simplify_eq/=; try apply Hp.
all: try (intros Hin%elem_of_delete; by apply Hp).
all: intros [[= -> ->]|Hin]%elem_of_set; [done|by apply Hp].
Qed.

Lemma so_reachable_states_keyed p : reachable p → states_keyed p.
Proof.
induction 1 as [w show|m p _ IH].
- intros k s Hin. by apply elem_of_nil in Hin.
- by apply so_states_keyed_call.
Qed.

End StateOnlyFacts.

(** ** The embedding on small inputs *)

Example trim_blank : trim "  	 " = "" ∧ trim " my server " = "my server".
Proof. split; reflexivity. Qed.

Example trim_unicode : trim (spaces +:+ "my server" +:+ spaces) = "my server".
Proof. reflexivity. Qed.

Example number_to_string_decimal :
  number_to_string 3 = "3" ∧ number_to_string (-12) = "-12".
Proof. split; reflexivity. Qed.

Example validate_names :
  validate (λ value, String.eqb value "s1") "  " = Some "Cannot set empty server name"
  ∧ validate (λ value, String.eqb value "s1") "s1"
    = Some "Cannot set duplicate server name"
  ∧ validate (λ value, String.eqb value "s1") "s2" = None.
Proof. repeat split. Qed.

Example created_server :
  StateOnly.addLocation pick_srv (λ _, Fulfilled (Some "s1"))
    (λ _, Fulfilled (Some [Protocol.ServerBean.mk "/opt/srv" (Some "EAP")]))
    created (StateOnly.constructor [] false)
  = ([FindServerBeans "/opt/srv";
      CreateServerAsync (Protocol.ServerBean.mk "/opt/srv" (Some "EAP")) "s1"],
     Fulfilled (Some (Protocol.Status.mk 0 "ok"))).
Proof. reflexivity. Qed.

Example roots_in_insertion_order :
  HandleTracking.getChildren None
    (dispatch (HandleTrackingHistory.call <$>
       [InsertServer wildfly; InsertServer tomcat; InsertServer wildfly])
       (HandleTracking.constructor [] false))
  = Some [HandleNode wildfly; HandleNode tomcat].
Proof. reflexivity. Qed.

Example deployable_tag_out_of_table :
  vscode.contextValue <$>
    StateOnly.getTreeItem
      (DeployableNode (Protocol.DeployableState.mk (Some "app.war") 6))
      (StateOnly.constructor [] false)
  = Some None.
Proof. reflexivity. Qed.

(** ** State updates *)

Lemma so_last_write_wins events : ∀ (p : StateOnly.provider) id,
  JsMap.get id (StateOnly.serverStatus
    (dispatch (StateOnly.updateServer <$> events) p))
  = match last_event id events with
    | Some e => Some e
    | None => JsMap.get id (StateOnly.serverStatus p)
    end.
Proof.
induction events as [|e events IH]; intros p id; [done|].
rewrite fmap_cons, dispatch_cons, IH, last_event_cons.
destruct (last_event id events); [done|].
destruct (so_updateServer e p) as (_ & -> & _).
destruct (decide _) as [<-|Hne].
- by rewrite get_set_eq.
- by rewrite get_set_ne.
Qed.

Lemma ht_last_write_wins events : ∀ (p : HandleTracking.provider) id,
  HandleTrackingHistory.handles_keyed p →
  is_Some (JsMap.get id (HandleTracking.servers p)) →
  JsMap.get id (HandleTracking.serverStatus
    (dispatch (HandleTracking.updateServer <$> events) p))
  = match last_event id events with
    | Some e => Some e
    | None => JsMap.get id (HandleTracking.serverStatus p)
    end.
Proof.
induction events as [|e events IH]; intros p id Hkeyed Hid; [done|].
rewrite fmap_cons, dispatch_cons, last_event_cons.
destruct (JsMap.get (Protocol.ServerHandle.id (Protocol.ServerState.server e))
  (HandleTracking.servers p)) as [value|] eqn:Hvalue.
- destruct (ht_updateServer_known e value p Hvalue)
    as (_ & Hservers & Hstatus & _).
  rewrite IH.
  + destruct (last_event id events); [done|].
    rewrite Hstatus, (Hkeyed _ _ Hvalue).
    destruct (decide _) as [<-|Hne].
    * by rewrite get_set_eq.
    * by rewrite get_set_ne.
  + intros k h. rewrite Hservers. apply Hkeyed.
  + by rewrite Hservers.
- unfold exec at 1. rewrite (ht_updateServer_unknown e p Hvalue). simpl.
  rewrite IH by done.
  destruct (last_event id events); [done|].
  rewrite decide_False; [done|].
  intros Heq. rewrite <-Heq, Hvalue in Hid. by apply is_Some_None in Hid.
Qed.

(** C1: in the handle-tracking variant, a state update for a server whose
    handle is not in [servers] does not complete silently. On a provider
    that was just built, [updateServer] throws a [TypeError] for every
    event, when it reads [value.id]; no field has been written and no
    event fired by then. *)
Theorem updateServer_unknown_handle_throws :
  ∀ w show event,
    HandleTracking.updateServer event (HandleTracking.constructor w show)
    = (Throw (TypeError "Cannot read property 'id' of undefined"),
       HandleTracking.constructor w show).
Proof. intros w show event. by apply ht_updateServer_unknown. Qed.

(** C2, as stated, fails in the handle-tracking variant: after the single
    update [started tomcat] on a new provider, that update is the last event
    about [s1], yet the registry has no state for [s1]. *)
Lemma last_write_wins_unregistered :
  last_event "s1" [started tomcat] = Some (started tomcat)
  ∧ JsMap.get "s1" (HandleTracking.serverStatus
      (dispatch (HandleTracking.updateServer <$> [started tomcat])
         (HandleTracking.constructor [] false)))
    ≠ Some (started tomcat).
Proof. split; [reflexivity|discriminate]. Qed.

(** C2 (amended): after any sequence of [updateServer] calls, the state the
    registry holds for an identifier is exactly the last event of the
    sequence about that identifier, deployables included, whatever events
    about other identifiers come in between; an identifier without event
    keeps what it had. This holds for every identifier in the state-only
    variant, and in the handle-tracking variant for every identifier that
    has a handle in [servers], whether or not the servers of the other
    events have one. *)
Theorem last_write_wins :
  (∀ (p : StateOnly.provider) events id,
     JsMap.get id (StateOnly.serverStatus
       (dispatch (StateOnly.updateServer <$> events) p))
     = match last_event id events with
       | Some e => Some e
       | None => JsMap.get id (StateOnly.serverStatus p)
       end)
  ∧ (∀ (p : HandleTracking.provider) events id,
       HandleTrackingHistory.reachable p →
       is_Some (JsMap.get id (HandleTracking.servers p)) →
       JsMap.get id (HandleTracking.serverStatus
         (dispatch (HandleTracking.updateServer <$> events) p))
       = match last_event id events with
         | Some e => Some e
         | None => JsMap.get id (HandleTracking.serverStatus p)
         end).
Proof.
split.
- intros p events id. apply so_last_write_wins.
- intros p events id Hp Hid.
  apply ht_last_write_wins; [by apply ht_reachable_handles_keyed|done].
Qed.

Lemma last_write_wins_witness :
  JsMap.get "s1" (HandleTracking.serverStatus
    (dispatch
       (HandleTracking.updateServer <$>
          [starting tomcat; started wildfly; started tomcat;
           starting wildfly])
       (dispatch
          (HandleTrackingHistory.call <$> [InsertServer tomcat])
          (HandleTracking.constructor [] false))))
  = Some (started tomcat).
Proof.
apply (proj2 last_write_wins
  (exec (HandleTrackingHistory.call (InsertServer tomcat))
     (HandleTracking.constructor [] false))
  [starting tomcat; started wildfly; started tomcat; starting wildfly] "s1").
- apply HandleTrackingHistory.reachable_call.
  apply HandleTrackingHistory.reachable_new.
- by exists tomcat.
Defined.

(** ** The server-creation workflow *)

Section WorkflowFacts.
Variable showOpenDialog : OpenDialogOptions → settled (option (list Uri.t)).
Variable showInputBox : InputBoxOptions → settled (option string).
Variable findServerBeans :
  string → settled (option (list Protocol.ServerBean.t)).
Variable createServerAsync :
  Protocol.ServerBean.t → string → settled Protocol.Status.t.
Variable registered : string → bool.

Local Abbreviation workflow :=
  (addLocation showOpenDialog showInputBox findServerBeans createServerAsync
     registered).

Lemma detected_undetected beans : undetected beans → detected (Some beans) = None.
Proof.
destruct beans as [|bean rest]; [done|]. simpl. intros [->| ->]; [done|].
by rewrite bool_decide_true, andb_false_r.
Qed.

Lemma workflow_undetected folder beans :
  showOpenDialog locationOptions = Fulfilled (Some [folder]) →
  findServerBeans (Uri.fsPath folder) = Fulfilled (Some beans) →
  undetected beans →
  workflow = ([FindServerBeans (Uri.fsPath folder)],
              Rejected "Cannot detect server in selected location!").
Proof.
intros Hdialog Hbeans Hund.
unfold addLocation, selectLocation, host, findBeans, client, then_ at 3.
rewrite Hdialog. simpl. rewrite Hbeans. simpl.
unfold promptName. by rewrite (detected_undetected _ Hund).
Qed.

Lemma workflow_no_list folder :
  showOpenDialog locationOptions = Fulfilled (Some [folder]) →
  findServerBeans (Uri.fsPath folder) = Fulfilled None →
  workflow = ([FindServerBeans (Uri.fsPath folder)], Fulfilled None).
Proof.
intros Hdialog Hbeans.
unfold addLocation, selectLocation, host, findBeans, client, then_ at 3.
rewrite Hdialog. simpl. by rewrite Hbeans.
Qed.

Lemma workflow_no_folder folders :
  showOpenDialog locationOptions = Fulfilled folders →
  (∀ folder, folders ≠ Some [folder]) →
  workflow = ([], Fulfilled None).
Proof.
intros Hdialog Hfolders.
unfold addLocation, selectLocation, host, findBeans, then_ at 3.
rewrite Hdialog.
destruct folders as [[|folder [|? ?]]|]; try done.
by destruct (Hfolders folder).
Qed.

End WorkflowFacts.

(** C3, as stated, fails when the discovery answers with an empty list of
    beans: the workflow is rejected with the detection error instead of
    ending silently without result. *)
Lemma addLocation_empty_list_rejected :
  HandleTracking.addLocation pick_srv no_name (λ _, Fulfilled (Some []))
    created (HandleTracking.constructor [] false)
  = ([FindServerBeans "/opt/srv"],
     Rejected "Cannot detect server in selected location!")
  ∧ StateOnly.addLocation pick_srv no_name (λ _, Fulfilled (Some []))
      created (StateOnly.constructor [] false)
    = ([FindServerBeans "/opt/srv"],
       Rejected "Cannot detect server in selected location!").
Proof. split; reflexivity. Qed.

(** C3 (amended): in [addLocation] of both variants, once one folder is
    chosen, if the discovery answers with a list of beans, empty or not,
    whose first bean is missing or has a category that is missing, empty or
    [UNKNOWN], the workflow is rejected with the error [Cannot detect server
    in selected location!]; if the discovery answers without a list, the
    workflow ends without result and without error. In both cases the
    discovery is the only request sent: no server is created. *)
Theorem addLocation_detection
  showOpenDialog showInputBox findServerBeans createServerAsync
  (pa : HandleTracking.provider) (pb : StateOnly.provider) folder :
  showOpenDialog locationOptions = Fulfilled (Some [folder]) →
  (∀ beans,
     findServerBeans (Uri.fsPath folder) = Fulfilled (Some beans) →
     undetected beans →
     HandleTracking.addLocation showOpenDialog showInputBox findServerBeans
       createServerAsync pa
     = ([FindServerBeans (Uri.fsPath folder)],
        Rejected "Cannot detect server in selected location!")
     ∧ StateOnly.addLocation showOpenDialog showInputBox findServerBeans
         createServerAsync pb
       = ([FindServerBeans (Uri.fsPath folder)],
          Rejected "Cannot detect server in selected location!"))
  ∧ (findServerBeans (Uri.fsPath folder) = Fulfilled None →
     HandleTracking.addLocation showOpenDialog showInputBox findServerBeans
       createServerAsync pa
     = ([FindServerBeans (Uri.fsPath folder)], Fulfilled None)
     ∧ StateOnly.addLocation showOpenDialog showInputBox findServerBeans
         createServerAsync pb
       = ([FindServerBeans (Uri.fsPath folder)], Fulfilled None)).
Proof.
intros Hdialog. split.
- intros beans Hbeans Hund.
  split; by eapply workflow_undetected.
- intros Hbeans. split; by eapply workflow_no_list.
Qed.

Lemma addLocation_detection_witness :
  HandleTracking.addLocation pick_srv no_name
    (λ _, Fulfilled (Some [unknown_bean])) created
    (HandleTracking.constructor [] false)
  = ([FindServerBeans "/opt/srv"],
     Rejected "Cannot detect server in selected location!")
  ∧ StateOnly.addLocation pick_srv no_name (λ _, Fulfilled None) created
      (StateOnly.constructor [] false)
    = ([FindServerBeans "/opt/srv"], Fulfilled None).
Proof.
split.
- apply (proj1 (addLocation_detection pick_srv no_name
    (λ _, Fulfilled (Some [unknown_bean])) created
    (HandleTracking.constructor [] false) (StateOnly.constructor [] false)
    srv_folder eq_refl) [unknown_bean] eq_refl (or_intror eq_refl)).
- apply (proj2 (addLocation_detection pick_srv no_name
    (λ _, Fulfilled None) created
    (HandleTracking.constructor [] false) (StateOnly.constructor [] false)
    srv_folder eq_refl) eq_refl).
Defined.

(** ** The tree *)

(** C4: for a server node whose handle has identifier [s1] and type name
    [Tomcat], the label of the item [getTreeItem] returns is exactly
    [s1:Tomcat(Started)] when the state the registry holds for [s1] has
    run-state code 2, and exactly [s1:Tomcat(Unknown)] when the registry
    holds no state for [s1]. The node is the handle itself in the
    handle-tracking variant and a state of that server in the state-only
    variant; the provider is in any state its calls can reach. *)
Theorem label_derivation
  (h : Protocol.ServerHandle.t) (s : Protocol.ServerState.t)
  (pa : HandleTracking.provider) (pb : StateOnly.provider) :
  Protocol.ServerHandle.id h = "s1" →
  Protocol.ServerType.visibleName (Protocol.ServerHandle.type h) = "Tomcat" →
  Protocol.ServerState.server s = h →
  HandleTrackingHistory.reachable pa →
  StateOnlyHistory.reachable pb →
  ((∀ st, JsMap.get "s1" (HandleTracking.serverStatus pa) = Some st →
          Protocol.ServerState.state st = 2%Z →
          vscode.label <$> HandleTracking.getTreeItem (HandleNode h) pa
          = Some "s1:Tomcat(Started)")
   ∧ (JsMap.get "s1" (HandleTracking.serverStatus pa) = None →
      vscode.label <$> HandleTracking.getTreeItem (HandleNode h) pa
      = Some "s1:Tomcat(Unknown)"))
  ∧ ((∀ st, JsMap.get "s1" (StateOnly.serverStatus pb) = Some st →
            Protocol.ServerState.state st = 2%Z →
            vscode.label <$> StateOnly.getTreeItem (StateNode s) pb
            = Some "s1:Tomcat(Started)")
     ∧ (JsMap.get "s1" (StateOnly.serverStatus pb) = None →
        vscode.label <$> StateOnly.getTreeItem (StateNode s) pb
        = Some "s1:Tomcat(Unknown)")).
Proof.
intros Hid Hname Hs Hpa%ht_reachable_runStateEnum Hpb%so_reachable_runStateEnum.
destruct s as [h' code deployables]. simpl in Hs. subst h'.
destruct h as [id [tid name]]. simpl in Hid, Hname. subst id name.
unfold HandleTracking.getTreeItem, StateOnly.getTreeItem. simpl.
rewrite Hpa, Hpb.
repeat split.
- intros st -> ->. reflexivity.
- intros ->. reflexivity.
- intros st -> ->. reflexivity.
- intros ->. reflexivity.
Qed.

Lemma label_derivation_witness :
  vscode.label <$> HandleTracking.getTreeItem (HandleNode tomcat)
    (dispatch (HandleTrackingHistory.call <$>
       [InsertServer tomcat; UpdateServer (started tomcat)])
       (HandleTracking.constructor [] false))
  = Some "s1:Tomcat(Started)"
  ∧ vscode.label <$> StateOnly.getTreeItem (StateNode (starting tomcat))
      (StateOnly.constructor [] false)
    = Some "s1:Tomcat(Unknown)".
Proof.
assert (HandleTrackingHistory.reachable
  (dispatch (HandleTrackingHistory.call <$>
     [InsertServer tomcat; UpdateServer (started tomcat)])
     (HandleTracking.constructor [] false))) as Hpa.
{ do 2 apply HandleTrackingHistory.reachable_call.
  apply HandleTrackingHistory.reachable_new. }
pose proof (StateOnlyHistory.reachable_new [] false) as Hpb.
destruct (label_derivation tomcat (starting tomcat) _ _
  eq_refl eq_refl eq_refl Hpa Hpb) as [[Hstarted _] [_ Hunknown]].
split.
- apply (Hstarted (started tomcat)); reflexivity.
- apply Hunknown. reflexivity.
Defined.

(** C5, as stated, fails twice. In the state-only variant [getChildren] of
    a deployable node returns [undefined], not an empty sequence; in the
    handle-tracking variant [getChildren] of the node of a server whose
    state holds two deployables returns [undefined] as well, be the node
    the handle or the state. *)
Lemma getChildren_undefined :
  let p := dispatch (HandleTrackingHistory.call <$>
             [InsertServer tomcat; UpdateServer (started tomcat)])
             (HandleTracking.constructor [] false) in
  StateOnly.getChildren (Some (DeployableNode app_war))
    (StateOnly.constructor [] false) ≠ Some []
  ∧ Protocol.ServerState.deployableStates
      <$> JsMap.get "s1" (HandleTracking.serverStatus p)
    = Some [app_war; other_war]
  ∧ HandleTracking.getChildren (Some (HandleNode tomcat)) p = None
  ∧ HandleTracking.getChildren (Some (StateNode (started tomcat))) p = None.
Proof. split; [discriminate|repeat split]. Qed.

(** C5 (amended): in the state-only variant, [getChildren] of a server node
    whose state holds two deployables returns exactly these two, in their
    order, and [getChildren] of a deployable node returns no sequence at
    all ([undefined]); in the handle-tracking variant [getChildren] returns
    no sequence for every node it is given. *)
Theorem getChildren_shape :
  (∀ (p : StateOnly.provider) s d1 d2,
     Protocol.ServerState.deployableStates s = [d1; d2] →
     StateOnly.getChildren (Some (StateNode s)) p
     = Some [DeployableNode d1; DeployableNode d2])
  ∧ (∀ (p : StateOnly.provider) d,
       StateOnly.getChildren (Some (DeployableNode d)) p = None)
  ∧ (∀ (p : HandleTracking.provider) element,
       HandleTracking.getChildren (Some element) p = None).
Proof.
split; [|split].
- intros p s d1 d2 Hs. unfold StateOnly.getChildren. simpl. by rewrite Hs.
- reflexivity.
- reflexivity.
Qed.

Lemma getChildren_shape_witness :
  StateOnly.getChildren (Some (StateNode (started tomcat)))
    (StateOnly.constructor [] false)
  = Some [DeployableNode app_war; DeployableNode other_war].
Proof.
apply (proj1 getChildren_shape (StateOnly.constructor [] false)
  (started tomcat) app_war other_war).
reflexivity.
Defined.

(** C8, as stated, fails on the label: it does not carry the reference of
    the deployable. Two deployables with different references and the same
    state code get the same label, made of a fixed text and the code. *)
Lemma deployable_label_ignores_reference :
  Protocol.DeployableState.reference app_war
    ≠ Protocol.DeployableState.reference other_war
  ∧ vscode.label <$> StateOnly.getTreeItem (DeployableNode app_war)
      (StateOnly.constructor [] false)
    = Some "I am a deployment: 3"
  ∧ vscode.label <$> StateOnly.getTreeItem (DeployableNode other_war)
      (StateOnly.constructor [] false)
    = Some "I am a deployment: 3".
Proof. split; [discriminate|split; reflexivity]. Qed.

Lemma number_round_trip n : number_of_string (number_to_string n) = Some n.
Proof.
unfold number_of_string, number_to_string. rewrite NilZero.isi.
- exact (f_equal Some (DecimalZ.of_to n)).
- destruct n as [|q|q]; simpl; try done.
  intros [= Hnil]. by apply Unsigned.to_uint_nonnil in Hnil.
- destruct n as [|q|q]; simpl; try done.
  intros [= Hnil]. by apply Unsigned.to_uint_nonnil in Hnil.
Qed.

(** C8 (amended): in the state-only variant, for every deployable node with
    a reference and a state code that is a safe integer, [getTreeItem]
    returns an item whose label is the fixed text [I am a deployment: ]
    followed by the decimal numeral of the raw state code of the deployable
    (the reference is not part of it), and whose context tag is the entry
    of the run-state table at the index given by that same state code,
    [undefined] when the table has none. *)
Theorem deployable_item (d : Protocol.DeployableState.t) (p : StateOnly.provider) :
  truthy (Protocol.DeployableState.reference d) = true →
  isSafeInteger (Protocol.DeployableState.state d) = true →
  ∃ item numeral,
    StateOnly.getTreeItem (DeployableNode d) p = Some item
    ∧ vscode.label item = "I am a deployment: " +:+ numeral
    ∧ numeral = number_to_string (Protocol.DeployableState.state d)
    ∧ number_of_string numeral = Some (Protocol.DeployableState.state d)
    ∧ vscode.contextValue item
      = JsMap.get (Protocol.DeployableState.state d) (StateOnly.runStateEnum p).
Proof.
intros Href _. unfold StateOnly.getTreeItem. simpl. rewrite Href.
eexists _, _. split; [reflexivity|]. split; [reflexivity|].
split; [reflexivity|]. split; [apply number_round_trip|reflexivity].
Qed.

Lemma deployable_item_witness :
  ∃ item numeral,
    StateOnly.getTreeItem (DeployableNode app_war)
      (StateOnly.constructor [] false) = Some item
    ∧ vscode.label item = "I am a deployment: " +:+ numeral
    ∧ numeral = "3"
    ∧ number_of_string numeral = Some 3%Z
    ∧ vscode.contextValue item = Some "Stopping".
Proof.
apply (deployable_item app_war (StateOnly.constructor [] false)); reflexivity.
Defined.

(** C10: in the handle-tracking variant, [getTreeItem] returns no item for
    a node with a [deployableStates] property, that is for every server
    state; the nodes it renders are exactly those without that property
    and with a non-empty [id], the server handles. *)
Theorem getTreeItem_handles_only :
  (∀ (p : HandleTracking.provider) s,
     HandleTracking.getTreeItem (StateNode s) p = None)
  ∧ (∀ (p : HandleTracking.provider) item,
       defined (node_deployableStates item) = true →
       HandleTracking.getTreeItem item p = None)
  ∧ (∀ (p : HandleTracking.provider) item,
       is_Some (HandleTracking.getTreeItem item p)
       ↔ node_deployableStates item = None
         ∧ truthy (node_id item) = true
         ∧ ∃ h, item = HandleNode h).
Proof.
split; [done|split].
- intros p item Hdef. unfold HandleTracking.getTreeItem. by rewrite Hdef.
- intros p [h|s|d]; unfold HandleTracking.getTreeItem; simpl.
  + destruct (negb _) eqn:Hid; split.
    * intros _. eauto.
    * intros _. eauto.
    * by intros ?%is_Some_None.
    * by intros (_ & ? & _).
  + split; [by intros ?%is_Some_None|by intros (? & _)].
  + split; [by intros ?%is_Some_None|by intros (_ & ? & _)].
Qed.

Lemma getTreeItem_handles_only_witness :
  HandleTracking.getTreeItem (StateNode (started tomcat))
    (HandleTracking.constructor [] false) = None
  ∧ is_Some (HandleTracking.getTreeItem (HandleNode tomcat)
      (HandleTracking.constructor [] false)).
Proof.
destruct getTreeItem_handles_only as (_ & Hstate & Hhandle).
split.
- apply Hstate. reflexivity.
- apply Hhandle. split; [reflexivity|split; [reflexivity|]]. by exists tomcat.
Defined.

(** C9: in the state-only variant [insertServer] returns and leaves the
    status map, the channel map, the channels and both enum tables as they
    were; it only fires one event without argument. The roots are therefore
    unchanged: when the registry of a reachable provider has no state for
    the added server, no root is about that server after the call, and
    the server shows among the roots once a state update for it has
    arrived. *)
Theorem insertServer_state_only_frame
  (handle : Protocol.ServerHandle.t) (p : StateOnly.provider) :
  let p' := exec (StateOnly.insertServer handle) p in
  outcome (StateOnly.insertServer handle) p = Return tt
  ∧ StateOnly.serverStatus p' = StateOnly.serverStatus p
  ∧ StateOnly.serverOutputChannels p' = StateOnly.serverOutputChannels p
  ∧ StateOnly.channels p' = StateOnly.channels p
  ∧ StateOnly.runStateEnum p' = StateOnly.runStateEnum p
  ∧ StateOnly.publishStateEnum p' = StateOnly.publishStateEnum p
  ∧ StateOnly.onDidChangeTreeData p' = StateOnly.onDidChangeTreeData p ++ [None]
  ∧ StateOnly.getChildren None p' = StateOnly.getChildren None p
  ∧ (StateOnlyHistory.reachable p →
     JsMap.get (Protocol.ServerHandle.id handle) (StateOnly.serverStatus p) = None →
     ∃ roots, StateOnly.getChildren None p' = Some roots
       ∧ ∀ s, StateNode s ∈ roots →
              Protocol.ServerHandle.id (Protocol.ServerState.server s)
              ≠ Protocol.ServerHandle.id handle)
  ∧ (∀ event, Protocol.ServerState.server event = handle →
     ∃ roots,
       StateOnly.getChildren None (exec (StateOnly.updateServer event) p')
       = Some roots
       ∧ StateNode event ∈ roots).
Proof.
repeat split.
- intros Hp%so_reachable_states_keyed Hget. eexists; split; [reflexivity|].
  intros s (s' & [= <-] & Hs)%list_elem_of_fmap Hid. simpl in Hs.
  apply elem_of_values in Hs as [k Hin].
  rewrite <-Hid, (Hp _ _ Hin) in Hget.
  by apply (get_None_not_elem _ s) in Hget.
- intros event <-. eexists; split; [reflexivity|].
  apply list_elem_of_fmap. exists event. split; [done|].
  eapply elem_of_values_get.
  destruct (so_updateServer event (exec (StateOnly.insertServer
    (Protocol.ServerState.server event)) p)) as (_ & -> & _).
  apply get_set_eq.
Qed.

Lemma insertServer_state_only_frame_witness :
  (∃ roots,
     StateOnly.getChildren None
       (exec (StateOnly.insertServer tomcat) (StateOnly.constructor [] false))
     = Some roots
     ∧ ∀ s, StateNode s ∈ roots →
            Protocol.ServerHandle.id (Protocol.ServerState.server s) ≠ "s1")
  ∧ ∃ roots,
      StateOnly.getChildren None
        (exec (StateOnly.updateServer (started tomcat))
           (exec (StateOnly.insertServer tomcat)
              (StateOnly.constructor [] false)))
      = Some roots
      ∧ StateNode (started tomcat) ∈ roots.
Proof.
destruct (insertServer_state_only_frame tomcat (StateOnly.constructor [] false))
  as (_ & _ & _ & _ & _ & _ & _ & _ & Hnone & Hsome).
split.
- apply Hnone; [apply StateOnlyHistory.reachable_new|reflexivity].
- apply Hsome. reflexivity.
Defined.

(** ** Output channels *)

Lemma alter_last {A} (f : A → A) (l : list A) (x : A) :
  alter f (length l) (l ++ [x]) = l ++ [f x].
Proof. by rewrite <-(Nat.add_0_r (length l)), alter_app_r. Qed.

Lemma lookup_last {A} (l : list A) (x : A) : (l ++ [x]) !! length l = Some x.
Proof. by rewrite lookup_app_r, Nat.sub_diag. Qed.

(** The proofs are the same in both variants. *)
Ltac output_first Hget :=
  run_method; rewrite Hget; simpl;
  match goal with
  | |- context [if ?show then _ else _] =>
      destruct show eqn:Hshow; simpl; rewrite ?alter_last, ?Hshow; done
  end.

Ltac output_next Hget :=
  run_method; rewrite Hget; simpl;
  match goal with
  | |- context [if ?show then _ else _] =>
      destruct show eqn:Hshow; simpl;
      (split; [done|]);
      rewrite ?list_alter_alter_eq;
      (apply list_alter_ext; [|done]); by intros []
  end.

Section StateOnlyChannels.
Import StateOnly.

Lemma so_addServerOutput_first output p :
  let id := Protocol.ServerHandle.id (Protocol.ServerProcessOutput.server output) in
  JsMap.get id (serverOutputChannels p) = None →
  serverOutputChannels (exec (addServerOutput output) p)
    = JsMap.set id (length (channels p)) (serverOutputChannels p)
  ∧ channels (exec (addServerOutput output) p)
    = channels p ++
        [vscode.mkChannel ("Server: " +:+ id)
           (Protocol.ServerProcessOutput.text output)
           (showChannelOnServerOutput p) false]
  ∧ showChannelOnServerOutput (exec (addServerOutput output) p)
    = showChannelOnServerOutput p.
Proof. intros id Hget. subst id. output_first Hget. Qed.

Lemma so_addServerOutput_next output c p :
  let id := Protocol.ServerHandle.id (Protocol.ServerProcessOutput.server output) in
  JsMap.get id (serverOutputChannels p) = Some c →
  serverOutputChannels (exec (addServerOutput output) p)
    = serverOutputChannels p
  ∧ channels (exec (addServerOutput output) p)
    = alter (λ ch, vscode.mkChannel (vscode.name ch)
               (vscode.content ch +:+ Protocol.ServerProcessOutput.text output)
               (showChannelOnServerOutput p || vscode.visible ch)
               (vscode.disposed ch))
        c (channels p).
Proof. intros id Hget. subst id. output_next Hget. Qed.

Lemma so_updateServer_starting event c p :
  JsMap.get (Protocol.ServerHandle.id (Protocol.ServerState.server event))
    (serverOutputChannels p) = Some c →
  Protocol.ServerState.state event = ServerState.STARTING →
  channels (exec (updateServer event) p) = alter vscode.clear c (channels p).
Proof. intros Hget Hstate. run_method. by rewrite Hget, Hstate. Qed.

Lemma so_removeServer handle c p :
  JsMap.get (Protocol.ServerHandle.id handle) (serverOutputChannels p) = Some c →
  serverOutputChannels (exec (removeServer handle) p)
    = JsMap.delete (Protocol.ServerHandle.id handle) (serverOutputChannels p)
  ∧ channels (exec (removeServer handle) p)
    = alter vscode.dispose c (alter vscode.clear c (channels p)).
Proof. intros Hget. run_method. by rewrite Hget. Qed.

End StateOnlyChannels.

Section HandleTrackingChannels.
Import HandleTracking.

Lemma ht_addServerOutput_first output p :
  let id := Protocol.ServerHandle.id (Protocol.ServerProcessOutput.server output) in
  JsMap.get id (serverOutputChannels p) = None →
  serverOutputChannels (exec (addServerOutput output) p)
    = JsMap.set id (length (channels p)) (serverOutputChannels p)
  ∧ channels (exec (addServerOutput output) p)
    = channels p ++
        [vscode.mkChannel ("Server: " +:+ id)
           (Protocol.ServerProcessOutput.text output)
           (showChannelOnServerOutput p) false]
  ∧ showChannelOnServerOutput (exec (addServerOutput output) p)
    = showChannelOnServerOutput p.
Proof. intros id Hget. subst id. output_first Hget. Qed.

Lemma ht_addServerOutput_next output c p :
  let id := Protocol.ServerHandle.id (Protocol.ServerProcessOutput.server output) in
  JsMap.get id (serverOutputChannels p) = Some c →
  serverOutputChannels (exec (addServerOutput output) p)
    = serverOutputChannels p
  ∧ channels (exec (addServerOutput output) p)
    = alter (λ ch, vscode.mkChannel (vscode.name ch)
               (vscode.content ch +:+ Protocol.ServerProcessOutput.text output)
               (showChannelOnServerOutput p || vscode.visible ch)
               (vscode.disposed ch))
        c (channels p).
Proof. intros id Hget. subst id. output_next Hget. Qed.

Lemma ht_updateServer_starting event value c p :
  JsMap.get (Protocol.ServerHandle.id (Protocol.ServerState.server event))
    (servers p) = Some value →
  JsMap.get (Protocol.ServerHandle.id value) (serverOutputChannels p) = Some c →
  Protocol.ServerState.state event = ServerState.STARTING →
  channels (exec (updateServer event) p) = alter vscode.clear c (channels p).
Proof.
intros Hvalue Hget Hstate. run_method. rewrite Hvalue. simpl.
by rewrite Hget, Hstate.
Qed.

Lemma ht_removeServer handle c p :
  JsMap.get (Protocol.ServerHandle.id handle) (serverOutputChannels p) = Some c →
  serverOutputChannels (exec (removeServer handle) p)
    = JsMap.delete (Protocol.ServerHandle.id handle) (serverOutputChannels p)
  ∧ channels (exec (removeServer handle) p)
    = alter vscode.dispose c (alter vscode.clear c (channels p)).
Proof. intros Hget. run_method. by rewrite Hget. Qed.

End HandleTrackingChannels.

Ltac append_twice first next p a b Hget :=
  let Hmap1 := fresh "Hmap1" in
  let Hchannels1 := fresh "Hchannels1" in
  let Hget1 := fresh "Hget1" in
  let Hmap2 := fresh "Hmap2" in
  let Hchannels2 := fresh "Hchannels2" in
  destruct (first (says _ a) p Hget) as (Hmap1 & Hchannels1 & _);
  simpl in Hmap1, Hchannels1;
  match type of Hmap1 with
  | _ = JsMap.set ?k ?v ?m =>
      pose proof (get_set_eq k v m) as Hget1; rewrite <-Hmap1 in Hget1
  end;
  destruct (next (says _ b) _ _ Hget1) as (Hmap2 & Hchannels2);
  simpl in Hmap2, Hchannels2;
  eexists _, _; rewrite !dispatch_cons, dispatch_nil;
  split; [rewrite Hmap2; exact Hget1|];
  rewrite Hchannels2, Hchannels1, alter_last;
  split; [apply lookup_last|];
  split; [reflexivity|]; split; [reflexivity|];
  rewrite length_app; simpl; lia.

Ltac release_then_append remove first p text Hget Hch :=
  let Hmap1 := fresh "Hmap1" in
  let Hchannels1 := fresh "Hchannels1" in
  let Hget1 := fresh "Hget1" in
  let Hmap2 := fresh "Hmap2" in
  let Hchannels2 := fresh "Hchannels2" in
  destruct (remove _ _ p Hget) as (Hmap1 & Hchannels1);
  match type of Hmap1 with
  | _ = JsMap.delete ?k ?m =>
      pose proof (get_delete_eq k m) as Hget1; rewrite <-Hmap1 in Hget1
  end;
  destruct (first (says _ text) _ Hget1) as (Hmap2 & Hchannels2 & _);
  simpl in Hmap2, Hchannels2;
  split; [exact Hget1|]; split;
  [ eexists; rewrite Hchannels1, !list_lookup_alter_eq, Hch; simpl; done
  | match type of Hchannels2 with
    | _ = ?l ++ _ => eexists (length l), _
    end;
    rewrite Hmap2, Hchannels2;
    split;
    [ apply lookup_lt_Some in Hch; rewrite Hchannels1, !length_alter; lia
    | split; [apply get_set_eq|]; split; [apply lookup_last|done] ] ].

(** C6, as stated, fails in the handle-tracking variant when the handle of
    the server is not in [servers]: the update to [Starting] throws before
    it reaches the channel, whose content stays. *)
Lemma starting_unregistered_keeps_content :
  let p := exec (HandleTracking.addServerOutput (says tomcat "a"))
             (HandleTracking.constructor [] false) in
  Protocol.ServerState.state (starting tomcat) = ServerState.STARTING
  ∧ outcome (HandleTracking.updateServer (starting tomcat)) p
    = Throw (TypeError "Cannot read property 'id' of undefined")
  ∧ JsMap.get "s1" (HandleTracking.serverOutputChannels p) = Some 0
  ∧ vscode.content <$> HandleTracking.channels p !! 0 = Some "a"
  ∧ vscode.content <$>
      HandleTracking.channels
        (exec (HandleTracking.updateServer (starting tomcat)) p) !! 0
    = Some "a".
Proof. repeat split. Qed.

(** C6 (amended): in both variants, two calls of [addServerOutput] with
    texts [a] and [b] for a server without channel create one channel and
    leave it with the content [a] followed by [b]; a state update with
    run-state [Starting] empties the channel of its server and keeps it, not
    disposed, in the table (in the handle-tracking variant: when the server
    of the update has a handle in [servers]); [removeServer] empties and
    disposes the channel and drops it from the table, and a later
    [addServerOutput] for the same server creates another channel, not
    disposed, whose content is the new text alone. *)
Theorem output_channel_lifecycle :
  (∀ (p : StateOnly.provider) h a b,
     JsMap.get (Protocol.ServerHandle.id h) (StateOnly.serverOutputChannels p)
       = None →
     let p2 := dispatch [StateOnly.addServerOutput (says h a);
                         StateOnly.addServerOutput (says h b)] p in
     ∃ c ch,
       JsMap.get (Protocol.ServerHandle.id h)
         (StateOnly.serverOutputChannels p2) = Some c
       ∧ StateOnly.channels p2 !! c = Some ch
       ∧ vscode.content ch = a +:+ b
       ∧ vscode.disposed ch = false
       ∧ length (StateOnly.channels p2) = S (length (StateOnly.channels p)))
  ∧ (∀ (p : StateOnly.provider) event c ch,
       JsMap.get (Protocol.ServerHandle.id (Protocol.ServerState.server event))
         (StateOnly.serverOutputChannels p) = Some c →
       StateOnly.channels p !! c = Some ch →
       Protocol.ServerState.state event = ServerState.STARTING →
       let p' := exec (StateOnly.updateServer event) p in
       outcome (StateOnly.updateServer event) p = Return tt
       ∧ JsMap.get (Protocol.ServerHandle.id (Protocol.ServerState.server event))
           (StateOnly.serverOutputChannels p') = Some c
       ∧ ∃ ch', StateOnly.channels p' !! c = Some ch'
           ∧ vscode.content ch' = ""
           ∧ vscode.disposed ch' = vscode.disposed ch)
  ∧ (∀ (p : StateOnly.provider) h c ch text,
       JsMap.get (Protocol.ServerHandle.id h) (StateOnly.serverOutputChannels p)
         = Some c →
       StateOnly.channels p !! c = Some ch →
       let p1 := exec (StateOnly.removeServer h) p in
       let p2 := exec (StateOnly.addServerOutput (says h text)) p1 in
       JsMap.get (Protocol.ServerHandle.id h)
         (StateOnly.serverOutputChannels p1) = None
       ∧ (∃ ch1, StateOnly.channels p1 !! c = Some ch1
            ∧ vscode.content ch1 = "" ∧ vscode.disposed ch1 = true)
       ∧ ∃ c' ch',
           c' ≠ c
           ∧ JsMap.get (Protocol.ServerHandle.id h)
               (StateOnly.serverOutputChannels p2) = Some c'
           ∧ StateOnly.channels p2 !! c' = Some ch'
           ∧ vscode.content ch' = text
           ∧ vscode.disposed ch' = false)
  ∧ (∀ (p : HandleTracking.provider) h a b,
     JsMap.get (Protocol.ServerHandle.id h)
       (HandleTracking.serverOutputChannels p) = None →
     let p2 := dispatch [HandleTracking.addServerOutput (says h a);
                         HandleTracking.addServerOutput (says h b)] p in
     ∃ c ch,
       JsMap.get (Protocol.ServerHandle.id h)
         (HandleTracking.serverOutputChannels p2) = Some c
       ∧ HandleTracking.channels p2 !! c = Some ch
       ∧ vscode.content ch = a +:+ b
       ∧ vscode.disposed ch = false
       ∧ length (HandleTracking.channels p2)
         = S (length (HandleTracking.channels p)))
  ∧ (∀ (p : HandleTracking.provider) event c ch,
       HandleTrackingHistory.reachable p →
       is_Some (JsMap.get
         (Protocol.ServerHandle.id (Protocol.ServerState.server event))
         (HandleTracking.servers p)) →
       JsMap.get (Protocol.ServerHandle.id (Protocol.ServerState.server event))
         (HandleTracking.serverOutputChannels p) = Some c →
       HandleTracking.channels p !! c = Some ch →
       Protocol.ServerState.state event = ServerState.STARTING →
       let p' := exec (HandleTracking.updateServer event) p in
       outcome (HandleTracking.updateServer event) p = Return tt
       ∧ JsMap.get (Protocol.ServerHandle.id (Protocol.ServerState.server event))
           (HandleTracking.serverOutputChannels p') = Some c
       ∧ ∃ ch', HandleTracking.channels p' !! c = Some ch'
           ∧ vscode.content ch' = ""
           ∧ vscode.disposed ch' = vscode.disposed ch)
  ∧ (∀ (p : HandleTracking.provider) h c ch text,
       JsMap.get (Protocol.ServerHandle.id h)
         (HandleTracking.serverOutputChannels p) = Some c →
       HandleTracking.channels p !! c = Some ch →
       let p1 := exec (HandleTracking.removeServer h) p in
       let p2 := exec (HandleTracking.addServerOutput (says h text)) p1 in
       JsMap.get (Protocol.ServerHandle.id h)
         (HandleTracking.serverOutputChannels p1) = None
       ∧ (∃ ch1, HandleTracking.channels p1 !! c = Some ch1
            ∧ vscode.content ch1 = "" ∧ vscode.disposed ch1 = true)
       ∧ ∃ c' ch',
           c' ≠ c
           ∧ JsMap.get (Protocol.ServerHandle.id h)
               (HandleTracking.serverOutputChannels p2) = Some c'
           ∧ HandleTracking.channels p2 !! c' = Some ch'
           ∧ vscode.content ch' = text
           ∧ vscode.disposed ch' = false).
Proof.
split; [|split; [|split; [|split; [|split]]]].
- intros p h a b Hget p2. subst p2.
  append_twice so_addServerOutput_first so_addServerOutput_next p a b Hget.
- intros p event c ch Hget Hch Hstate p'. subst p'.
  destruct (so_updateServer event p) as (Hreturn & _ & _ & Hmap).
  split; [done|]. rewrite Hmap. split; [done|].
  exists (vscode.clear ch).
  by rewrite (so_updateServer_starting _ _ _ Hget Hstate),
    list_lookup_alter_eq, Hch.
- intros p h c ch text Hget Hch p1 p2. subst p1 p2.
  release_then_append so_removeServer so_addServerOutput_first p text Hget Hch.
- intros p h a b Hget p2. subst p2.
  append_twice ht_addServerOutput_first ht_addServerOutput_next p a b Hget.
- intros p event c ch Hp%ht_reachable_handles_keyed [value Hvalue] Hget Hch
    Hstate p'. subst p'.
  destruct (ht_updateServer_known event value p Hvalue)
    as (Hreturn & _ & _ & _ & Hmap).
  split; [done|]. rewrite Hmap. split; [done|].
  exists (vscode.clear ch).
  rewrite <-(Hp _ _ Hvalue) in Hget.
  by rewrite (ht_updateServer_starting _ _ _ _ Hvalue Hget Hstate),
    list_lookup_alter_eq, Hch.
- intros p h c ch text Hget Hch p1 p2. subst p1 p2.
  release_then_append ht_removeServer ht_addServerOutput_first p text Hget Hch.
Qed.

Lemma output_channel_lifecycle_witness :
  (∃ c ch,
     JsMap.get "s1" (StateOnly.serverOutputChannels
       (dispatch [StateOnly.addServerOutput (says tomcat "a");
                  StateOnly.addServerOutput (says tomcat "b")]
          (StateOnly.constructor [] false))) = Some c
     ∧ StateOnly.channels
         (dispatch [StateOnly.addServerOutput (says tomcat "a");
                    StateOnly.addServerOutput (says tomcat "b")]
            (StateOnly.constructor [] false)) !! c = Some ch
     ∧ vscode.content ch = "ab"
     ∧ vscode.disposed ch = false
     ∧ length (StateOnly.channels
         (dispatch [StateOnly.addServerOutput (says tomcat "a");
                    StateOnly.addServerOutput (says tomcat "b")]
            (StateOnly.constructor [] false))) = 1)
  ∧ (let p := dispatch (HandleTrackingHistory.call <$>
                 [InsertServer tomcat; AddServerOutput (says tomcat "a")])
                (HandleTracking.constructor [] false) in
     ∃ ch', HandleTracking.channels
              (exec (HandleTracking.updateServer (starting tomcat)) p) !! 0
            = Some ch'
       ∧ vscode.content ch' = ""
       ∧ vscode.disposed ch' = false)
  ∧ (let p := exec (StateOnly.addServerOutput (says tomcat "a"))
                (StateOnly.constructor [] false) in
     ∃ c' ch',
       c' ≠ 0
       ∧ JsMap.get "s1" (StateOnly.serverOutputChannels
           (exec (StateOnly.addServerOutput (says tomcat "c"))
              (exec (StateOnly.removeServer tomcat) p))) = Some c'
       ∧ StateOnly.channels
           (exec (StateOnly.addServerOutput (says tomcat "c"))
              (exec (StateOnly.removeServer tomcat) p)) !! c' = Some ch'
       ∧ vscode.content ch' = "c"
       ∧ vscode.disposed ch' = false).
Proof.
destruct output_channel_lifecycle as (Hso_append & _ & Hso_release & _ & Hht_start & _).
split; [|split].
- apply (Hso_append (StateOnly.constructor [] false) tomcat "a" "b").
  reflexivity.
- intros p.
  assert (HandleTrackingHistory.reachable p) as Hp.
  { do 2 apply HandleTrackingHistory.reachable_call.
    apply HandleTrackingHistory.reachable_new. }
  apply (Hht_start p (starting tomcat) 0
    (vscode.mkChannel "Server: s1" "a" false false) Hp);
    [by exists tomcat|reflexivity..].
- intros p.
  apply (Hso_release p tomcat 0
    (vscode.mkChannel "Server: s1" "a" false false) "c"); reflexivity.
Defined.

(** ** Change notifications *)

(** C7, as stated, fails in the handle-tracking variant: [updateServer] for
    a server without handle in [servers] throws before it reaches
    [refresh], so that invocation fires no event. *)
Lemma updateServer_unregistered_fires_nothing :
  HandleTracking.onDidChangeTreeData
    (exec (HandleTracking.updateServer (started tomcat))
       (HandleTracking.constructor [] false))
  = [].
Proof. reflexivity. Qed.

(** C7 (amended): each invocation of [insertServer] and of [removeServer],
    in both variants, fires exactly one event, without argument; each
    invocation of [updateServer] fires exactly one event, whose argument is
    the event itself in the state-only variant and, in the handle-tracking
    variant, the handle [servers] holds for the server of the event, when
    it holds one. *)
Theorem one_notification_per_call :
  (∀ (p : HandleTracking.provider) handle,
     HandleTracking.onDidChangeTreeData
       (exec (HandleTracking.insertServer handle) p)
     = HandleTracking.onDidChangeTreeData p ++ [None])
  ∧ (∀ (p : HandleTracking.provider) handle,
       HandleTracking.onDidChangeTreeData
         (exec (HandleTracking.removeServer handle) p)
       = HandleTracking.onDidChangeTreeData p ++ [None])
  ∧ (∀ (p : HandleTracking.provider) event value,
       JsMap.get (Protocol.ServerHandle.id (Protocol.ServerState.server event))
         (HandleTracking.servers p) = Some value →
       outcome (HandleTracking.updateServer event) p = Return tt
       ∧ HandleTracking.onDidChangeTreeData
           (exec (HandleTracking.updateServer event) p)
         = HandleTracking.onDidChangeTreeData p ++ [Some value])
  ∧ (∀ (p : StateOnly.provider) handle,
       StateOnly.onDidChangeTreeData (exec (StateOnly.insertServer handle) p)
       = StateOnly.onDidChangeTreeData p ++ [None])
  ∧ (∀ (p : StateOnly.provider) handle,
       StateOnly.onDidChangeTreeData (exec (StateOnly.removeServer handle) p)
       = StateOnly.onDidChangeTreeData p ++ [None])
  ∧ (∀ (p : StateOnly.provider) event,
       StateOnly.onDidChangeTreeData (exec (StateOnly.updateServer event) p)
       = StateOnly.onDidChangeTreeData p ++ [Some event]).
Proof.
split; [|split; [|split; [|split; [|split]]]].
- reflexivity.
- intros p handle. run_method. by case_match.
- intros p event value Hvalue.
  by destruct (ht_updateServer_known event value p Hvalue) as (? & _ & _ & ? & _).
- reflexivity.
- intros p handle. run_method. by case_match.
- intros p event. by destruct (so_updateServer event p) as (_ & _ & ? & _).
Qed.

Lemma one_notification_per_call_witness :
  HandleTracking.onDidChangeTreeData
    (exec (HandleTracking.updateServer (started tomcat))
       (exec (HandleTracking.insertServer tomcat)
          (HandleTracking.constructor [] false)))
  = [None; Some tomcat].
Proof.
destruct one_notification_per_call as (_ & _ & Hupdate & _).
apply (Hupdate (exec (HandleTracking.insertServer tomcat)
  (HandleTracking.constructor [] false)) (started tomcat) tomcat).
reflexivity.
Defined.

(** * Further properties of the provider *)

(** ** More about [JsMap] *)

Section JsMapKeys.
Context {K V : Type} `{EqDecision K}.
Implicit Types (k : K) (v : V) (m : JsMap.t K V).

Lemma get_None_not_key k m : JsMap.get k m = None ↔ k ∉ m.*1.
Proof.
induction m as [|[k' v'] r IH]; simpl.
- split; [intros _; apply not_elem_of_nil|done].
- destruct (decide (k = k')) as [->|Hne].
  + split; [done|]. intros []. left.
  + rewrite IH. split.
    * intros Hr [?|?]%elem_of_cons; done.
    * intros Hr Hin. apply Hr. by right.
Qed.

Lemma keys_set_fresh k v m :
  JsMap.get k m = None → (JsMap.set k v m).*1 = m.*1 ++ [k].
Proof.
induction m as [|[k' v'] r IH]; simpl; [done|].
destruct (decide (k = k')); [done|]. intros Hr. simpl. f_equal. by apply IH.
Qed.

Lemma keys_set_known k v m :
  is_Some (JsMap.get k m) → (JsMap.set k v m).*1 = m.*1.
Proof.
induction m as [|[k' v'] r IH]; simpl; [by intros ?%is_Some_None|].
destruct (decide (k = k')) as [->|Hne]; [done|].
intros Hr. simpl. f_equal. by apply IH.
Qed.

Lemma length_set_known k v m :
  is_Some (JsMap.get k m) →
  length (JsMap.values (JsMap.set k v m)) = length (JsMap.values m).
Proof.
intros Hk. unfold JsMap.values.
by rewrite !length_fmap, <-(length_fmap fst), keys_set_known, length_fmap.
Qed.

Lemma keys_delete_sublist k m : sublist (JsMap.delete k m).*1 m.*1.
Proof.
induction m as [|[k' v'] r IH]; simpl; [done|].
destruct (decide (k = k')); simpl.
- by apply sublist_cons.
- by apply sublist_skip.
Qed.

Lemma NoDup_keys_set k v m : NoDup m.*1 → NoDup (JsMap.set k v m).*1.
Proof.
intros Hm. destruct (JsMap.get k m) as [v'|] eqn:Hk.
- by rewrite keys_set_known.
- rewrite keys_set_fresh by done. apply NoDup_app. split; [done|].
  split; [|apply NoDup_singleton].
  intros k' Hin ->%list_elem_of_singleton. by apply get_None_not_key in Hk.
Qed.

Lemma NoDup_keys_delete k m : NoDup m.*1 → NoDup (JsMap.delete k m).*1.
Proof. intros Hm. exact (sublist_NoDup _ _ Hm (keys_delete_sublist k m)). Qed.

Lemma keys_keyed (f : V → K) m :
  (∀ k v, (k, v) ∈ m → f v = k) → f <$> JsMap.values m = m.*1.
Proof.
unfold JsMap.values. induction m as [|[k v] r IH]; intros Hm; [done|].
simpl. f_equal.
- apply Hm. left.
- apply IH. intros k' v' Hin. apply Hm. by right.
Qed.

Lemma elem_of_get k v m : JsMap.get k m = Some v → (k, v) ∈ m.
Proof.
induction m as [|[k' v'] r IH]; simpl; [done|].
destruct (decide (k = k')) as [->|Hne].
- intros [= ->]. left.
- intros Hr. right. by apply IH.
Qed.

End JsMapKeys.

(** ** The registry *)

(** X1: [removeServer] returns in both variants, also for a server the
    provider has never seen; afterwards the registry holds neither state
    nor handle nor channel entry for that server, and the entries of every
    other server are what they were. *)
Theorem removeServer_forgets :
  (∀ (p : StateOnly.provider) handle,
     let p' := exec (StateOnly.removeServer handle) p in
     outcome (StateOnly.removeServer handle) p = Return tt
     ∧ JsMap.get (Protocol.ServerHandle.id handle) (StateOnly.serverStatus p')
       = None
     ∧ JsMap.get (Protocol.ServerHandle.id handle)
         (StateOnly.serverOutputChannels p') = None
     ∧ ∀ id, id ≠ Protocol.ServerHandle.id handle →
         JsMap.get id (StateOnly.serverStatus p')
         = JsMap.get id (StateOnly.serverStatus p)
         ∧ JsMap.get id (StateOnly.serverOutputChannels p')
           = JsMap.get id (StateOnly.serverOutputChannels p))
  ∧ (∀ (p : HandleTracking.provider) handle,
       let p' := exec (HandleTracking.removeServer handle) p in
       outcome (HandleTracking.removeServer handle) p = Return tt
       ∧ JsMap.get (Protocol.ServerHandle.id handle) (HandleTracking.servers p')
         = None
       ∧ JsMap.get (Protocol.ServerHandle.id handle)
           (HandleTracking.serverStatus p') = None
       ∧ JsMap.get (Protocol.ServerHandle.id handle)
           (HandleTracking.serverOutputChannels p') = None
       ∧ ∀ id, id ≠ Protocol.ServerHandle.id handle →
           JsMap.get id (HandleTracking.servers p')
           = JsMap.get id (HandleTracking.servers p)
           ∧ JsMap.get id (HandleTracking.serverStatus p')
             = JsMap.get id (HandleTracking.serverStatus p)
           ∧ JsMap.get id (HandleTracking.serverOutputChannels p')
             = JsMap.get id (HandleTracking.serverOutputChannels p)).
Proof.
split; intros p handle p'; subst p'; run_method;
  destruct (JsMap.get (Protocol.ServerHandle.id handle) _); simpl;
  rewrite ?get_delete_eq; repeat split; try done;
  apply get_delete_ne; congruence.
Qed.

(** X2: [removeServer] for a server without state, handle and channel
    changes nothing but the events fired: one more, without argument. *)
Theorem removeServer_unknown :
  (∀ (p : StateOnly.provider) handle,
     JsMap.get (Protocol.ServerHandle.id handle) (StateOnly.serverStatus p)
       = None →
     JsMap.get (Protocol.ServerHandle.id handle)
       (StateOnly.serverOutputChannels p) = None →
     exec (StateOnly.removeServer handle) p
     = StateOnly.set_onDidChangeTreeData (λ fired, fired ++ [None]) p)
  ∧ (∀ (p : HandleTracking.provider) handle,
       JsMap.get (Protocol.ServerHandle.id handle) (HandleTracking.servers p)
         = None →
       JsMap.get (Protocol.ServerHandle.id handle)
         (HandleTracking.serverStatus p) = None →
       JsMap.get (Protocol.ServerHandle.id handle)
         (HandleTracking.serverOutputChannels p) = None →
       exec (HandleTracking.removeServer handle) p
       = HandleTracking.set_onDidChangeTreeData (λ fired, fired ++ [None]) p).
Proof.
split.
- intros [] handle Hstatus Hchannel. simpl in *. run_method.
  rewrite Hchannel. simpl.
  unfold StateOnly.set_onDidChangeTreeData, StateOnly.set_serverOutputChannels.
  simpl. by rewrite !delete_absent.
- intros [] handle Hservers Hstatus Hchannel. simpl in *. run_method.
  rewrite Hchannel. simpl.
  unfold HandleTracking.set_onDidChangeTreeData,
    HandleTracking.set_serverOutputChannels.
  simpl. by rewrite !delete_absent.
Qed.

Lemma removeServer_unknown_witness :
  exec (StateOnly.removeServer wildfly)
    (exec (StateOnly.updateServer (started tomcat))
       (StateOnly.constructor [] false))
  = StateOnly.set_onDidChangeTreeData (λ fired, fired ++ [None])
      (exec (StateOnly.updateServer (started tomcat))
         (StateOnly.constructor [] false))
  ∧ exec (HandleTracking.removeServer wildfly)
      (exec (HandleTracking.insertServer tomcat)
         (HandleTracking.constructor [] false))
    = HandleTracking.set_onDidChangeTreeData (λ fired, fired ++ [None])
        (exec (HandleTracking.insertServer tomcat)
           (HandleTracking.constructor [] false)).
Proof.
split.
- apply (proj1 removeServer_unknown); reflexivity.
- apply (proj2 removeServer_unknown); reflexivity.
Defined.

Lemma so_removeServer_serverStatus handle p :
  StateOnly.serverStatus (exec (StateOnly.removeServer handle) p)
  = JsMap.delete (Protocol.ServerHandle.id handle) (StateOnly.serverStatus p).
Proof. run_method. by case_match. Qed.

Lemma ht_removeServer_servers handle p :
  HandleTracking.servers (exec (HandleTracking.removeServer handle) p)
  = JsMap.delete (Protocol.ServerHandle.id handle) (HandleTracking.servers p).
Proof. run_method. by case_match. Qed.

(** X3: a state update that follows the removal of its server gives, in the
    state-only variant, a new entry that is the update itself, shown last
    among the roots; in the handle-tracking variant the update throws and
    the server stays forgotten. *)
Theorem update_after_removal :
  (∀ (p : StateOnly.provider) event,
     let p1 := exec (StateOnly.removeServer (Protocol.ServerState.server event)) p in
     let p2 := exec (StateOnly.updateServer event) p1 in
     JsMap.get (Protocol.ServerHandle.id (Protocol.ServerState.server event))
       (StateOnly.serverStatus p2) = Some event
     ∧ StateOnly.getChildren None p2
       = (λ roots, roots ++ [StateNode event]) <$> StateOnly.getChildren None p1)
  ∧ (∀ (p : HandleTracking.provider) event,
       let p1 := exec (HandleTracking.removeServer
                         (Protocol.ServerState.server event)) p in
       HandleTracking.updateServer event p1
       = (Throw (TypeError "Cannot read property 'id' of undefined"), p1)).
Proof.
split.
- intros p event p1 p2. subst p1 p2.
  destruct (so_updateServer event (exec (StateOnly.removeServer
    (Protocol.ServerState.server event)) p)) as (_ & Hstatus & _).
  unfold StateOnly.getChildren. rewrite Hstatus, so_removeServer_serverStatus.
  split; [apply get_set_eq|].
  simpl. by rewrite values_set_fresh, fmap_app by apply get_delete_eq.
- intros p event p1. subst p1. apply ht_updateServer_unknown.
  rewrite ht_removeServer_servers. apply get_delete_eq.
Qed.

Section HandleTrackingRegistry.
Import HandleTracking HandleTrackingHistory.

Lemma ht_NoDup_servers p : reachable p → NoDup (servers p).*1.
Proof.
induction 1 as [w show|m p _ IH]; [apply NoDup_nil_2|].
destruct m; run_method; repeat case_match; simplify_eq/=;
  auto using NoDup_keys_set, NoDup_keys_delete.
Qed.

Lemma ht_status_has_handle p :
  reachable p →
  ∀ id, is_Some (JsMap.get id (serverStatus p)) →
        is_Some (JsMap.get id (servers p)).
Proof.
induction 1 as [w show|m p Hp IH]; [by intros id ?%is_Some_None|].
pose proof (ht_reachable_handles_keyed p Hp) as Hkeyed.
intros id. destruct m as [handle|event|handle|output|server].
- run_method. intros Hid%IH.
  destruct (decide (Protocol.ServerHandle.id handle = id)) as [<-|Hne].
  + by rewrite get_set_eq.
  + by rewrite get_set_ne.
- simpl. destruct (JsMap.get (Protocol.ServerHandle.id
    (Protocol.ServerState.server event)) (servers p)) as [value|] eqn:Hvalue.
  + destruct (ht_updateServer_known event value p Hvalue)
      as (_ & -> & -> & _).
    destruct (decide (Protocol.ServerHandle.id value = id)) as [<-|Hne].
    * intros _. by rewrite (Hkeyed _ _ Hvalue), Hvalue.
    * rewrite get_set_ne by done. apply IH.
  + unfold exec. rewrite (ht_updateServer_unknown event p Hvalue). apply IH.
- run_method.
  destruct (decide (Protocol.ServerHandle.id handle = id)) as [<-|Hne].
  + case_match; simpl; rewrite get_delete_eq; by intros ?%is_Some_None.
  + case_match; simpl; rewrite !get_delete_ne by done; apply IH.
- run_method. repeat case_match; simplify_eq/=; apply IH.
- run_method. repeat case_match; simplify_eq/=; apply IH.
Qed.

End HandleTrackingRegistry.

Section StateOnlyRegistry.
Import StateOnly StateOnlyHistory.

Lemma so_NoDup_serverStatus p : reachable p → NoDup (serverStatus p).*1.
Proof.
induction 1 as [w show|m p _ IH]; [apply NoDup_nil_2|].
destruct m; run_method; repeat case_match; simplify_eq/=;
  auto using NoDup_keys_set, NoDup_keys_delete.
Qed.

End StateOnlyRegistry.

Lemma get_elem_of {K V} `{EqDecision K} (k : K) (v : V) (m : JsMap.t K V) :
  NoDup m.*1 → (k, v) ∈ m → JsMap.get k m = Some v.
Proof.
induction m as [|[k' v'] r IH]; simpl; [by intros _ ?%elem_of_nil|].
intros [Hk' Hr]%NoDup_cons [[= -> ->]|Hin]%elem_of_cons.
- by rewrite decide_True.
- rewrite decide_False; [by apply IH|].
  intros ->. apply Hk'. apply list_elem_of_fmap. by exists (k', v).
Qed.

Lemma ht_roots_servers (p : HandleTracking.provider) :
  HandleTrackingHistory.reachable p →
  node_server <$> (HandleNode <$> JsMap.values (HandleTracking.servers p))
  = Some <$> (HandleTracking.servers p).*1.
Proof.
intros Hp. rewrite <-list_fmap_compose.
rewrite <-(keys_keyed Protocol.ServerHandle.id).
- by rewrite <-list_fmap_compose.
- intros k h Hin. apply (ht_reachable_handles_keyed p Hp).
  by apply get_elem_of; [apply ht_NoDup_servers|].
Qed.

Lemma so_roots_servers (p : StateOnly.provider) :
  StateOnlyHistory.reachable p →
  node_server <$> (StateNode <$> JsMap.values (StateOnly.serverStatus p))
  = Some <$> (StateOnly.serverStatus p).*1.
Proof.
intros Hp. rewrite <-list_fmap_compose.
rewrite <-(keys_keyed (λ s, Protocol.ServerHandle.id (Protocol.ServerState.server s))).
- by rewrite <-list_fmap_compose.
- apply (so_reachable_states_keyed p Hp).
Qed.

(** X4: the roots never show a server twice. In every state the calls can
    reach, [getChildren] without element returns roots that stand for
    pairwise different servers, in both variants. *)
Theorem roots_distinct :
  (∀ p : HandleTracking.provider,
     HandleTrackingHistory.reachable p →
     ∃ roots, HandleTracking.getChildren None p = Some roots
       ∧ NoDup (node_server <$> roots))
  ∧ (∀ p : StateOnly.provider,
       StateOnlyHistory.reachable p →
       ∃ roots, StateOnly.getChildren None p = Some roots
         ∧ NoDup (node_server <$> roots)).
Proof.
split; intros p Hp; (eexists; split; [reflexivity|]).
- rewrite ht_roots_servers by done.
  apply (NoDup_fmap_2 _), ht_NoDup_servers, Hp.
- rewrite so_roots_servers by done.
  apply (NoDup_fmap_2 _), so_NoDup_serverStatus, Hp.
Qed.

Lemma roots_distinct_witness :
  ∃ roots,
    HandleTracking.getChildren None
      (dispatch (HandleTrackingHistory.call <$>
         [InsertServer tomcat; InsertServer wildfly; InsertServer tomcat])
         (HandleTracking.constructor [] false)) = Some roots
    ∧ NoDup (node_server <$> roots).
Proof.
apply (proj1 roots_distinct).
do 3 apply HandleTrackingHistory.reachable_call.
apply HandleTrackingHistory.reachable_new.
Defined.

(** X5: in the handle-tracking variant every state the registry holds
    belongs to a server with a handle: in every reachable state, an
    identifier with an entry in [serverStatus] has one in [servers]. *)
Theorem status_has_handle (p : HandleTracking.provider) (id : string) :
  HandleTrackingHistory.reachable p →
  is_Some (JsMap.get id (HandleTracking.serverStatus p)) →
  is_Some (JsMap.get id (HandleTracking.servers p)).
Proof. intros Hp. by apply ht_status_has_handle. Qed.

Lemma status_has_handle_witness :
  is_Some (JsMap.get "s1" (HandleTracking.servers
    (dispatch (HandleTrackingHistory.call <$>
       [InsertServer tomcat; UpdateServer (started tomcat);
        UpdateServer (started wildfly)])
       (HandleTracking.constructor [] false)))).
Proof.
apply status_has_handle.
- do 3 apply HandleTrackingHistory.reachable_call.
  apply HandleTrackingHistory.reachable_new.
- by exists (started tomcat).
Defined.

(** X6: what a state update does to the roots. In the handle-tracking
    variant it never changes them, whether it returns or throws. In the
    state-only variant an update for a server without state adds its node
    after the other roots, and an update for a server with a state keeps
    the servers of the roots and their order. *)
Theorem updateServer_roots :
  (∀ (p : HandleTracking.provider) event,
     HandleTracking.getChildren None (exec (HandleTracking.updateServer event) p)
     = HandleTracking.getChildren None p)
  ∧ (∀ (p : StateOnly.provider) event,
       JsMap.get (Protocol.ServerHandle.id (Protocol.ServerState.server event))
         (StateOnly.serverStatus p) = None →
       StateOnly.getChildren None (exec (StateOnly.updateServer event) p)
       = (λ roots, roots ++ [StateNode event]) <$> StateOnly.getChildren None p)
  ∧ (∀ (p : StateOnly.provider) event,
       StateOnlyHistory.reachable p →
       is_Some (JsMap.get
         (Protocol.ServerHandle.id (Protocol.ServerState.server event))
         (StateOnly.serverStatus p)) →
       root_servers
         (StateOnly.getChildren None (exec (StateOnly.updateServer event) p))
       = root_servers (StateOnly.getChildren None p)).
Proof.
split; [|split].
- intros p event. unfold HandleTracking.getChildren.
  destruct (JsMap.get (Protocol.ServerHandle.id
    (Protocol.ServerState.server event)) (HandleTracking.servers p))
    as [value|] eqn:Hvalue.
  + by destruct (ht_updateServer_known event value p Hvalue) as (_ & -> & _).
  + unfold exec. by rewrite (ht_updateServer_unknown event p Hvalue).
- intros p event Hnew. unfold StateOnly.getChildren.
  destruct (so_updateServer event p) as (_ & -> & _). simpl.
  by rewrite values_set_fresh, fmap_app.
- intros p event Hp Hknown.
  assert (StateOnlyHistory.reachable (exec (StateOnly.updateServer event) p))
    as Hp' by apply (StateOnlyHistory.reachable_call (UpdateServer event) p Hp).
  unfold StateOnly.getChildren. simpl.
  rewrite !so_roots_servers by done.
  destruct (so_updateServer event p) as (_ & -> & _).
  by rewrite keys_set_known.
Qed.

Lemma updateServer_roots_witness :
  StateOnly.getChildren None
    (exec (StateOnly.updateServer (started wildfly))
       (exec (StateOnly.updateServer (started tomcat))
          (StateOnly.constructor [] false)))
  = Some [StateNode (started tomcat); StateNode (started wildfly)]
  ∧ root_servers
      (StateOnly.getChildren None
         (exec (StateOnly.updateServer (starting tomcat))
            (dispatch (StateOnlyHistory.call <$>
               [UpdateServer (started tomcat); UpdateServer (started wildfly)])
               (StateOnly.constructor [] false))))
    = Some [Some "s1"; Some "s2"].
Proof.
destruct updateServer_roots as (_ & Hnew & Hknown).
split.
- apply (Hnew (exec (StateOnly.updateServer (started tomcat))
    (StateOnly.constructor [] false)) (started wildfly)).
  reflexivity.
- rewrite (Hknown (dispatch (StateOnlyHistory.call <$>
    [UpdateServer (started tomcat); UpdateServer (started wildfly)])
    (StateOnly.constructor [] false)) (starting tomcat)).
  + reflexivity.
  + do 2 apply StateOnlyHistory.reachable_call.
    apply StateOnlyHistory.reachable_new.
  + by exists (started tomcat).
Defined.

(** ** Start-up *)

Lemma last_handle_cons id h handles :
  last_handle id (h :: handles) =
    match last_handle id handles with
    | Some h' => Some h'
    | None => if decide (Protocol.ServerHandle.id h = id) then Some h else None
    end.
Proof.
unfold last_handle. rewrite filter_cons.
destruct (decide (Protocol.ServerHandle.id h = id)); [|by destruct (last _)].
rewrite last_cons. by destruct (last _).
Qed.

Lemma ht_onServerHandles_cons h handles p :
  exec (HandleTrackingStartup.onServerHandles (h :: handles)) p
  = exec (HandleTrackingStartup.onServerHandles handles)
      (exec (HandleTracking.insertServer h) p)
  ∧ outcome (HandleTrackingStartup.onServerHandles (h :: handles)) p
    = outcome (HandleTrackingStartup.onServerHandles handles)
        (exec (HandleTracking.insertServer h) p).
Proof. split; reflexivity. Qed.

Lemma so_onServerHandles_cons h handles p :
  StateOnlyStartup.onServerHandles (h :: handles) p
  = StateOnlyStartup.onServerHandles handles
      (exec (StateOnly.insertServer h) p).
Proof. reflexivity. Qed.

Lemma ht_onServerHandles handles : ∀ p,
  outcome (HandleTrackingStartup.onServerHandles handles) p = Return tt
  ∧ (∀ id, JsMap.get id (HandleTracking.servers
             (exec (HandleTrackingStartup.onServerHandles handles) p))
           = match last_handle id handles with
             | Some h => Some h
             | None => JsMap.get id (HandleTracking.servers p)
             end)
  ∧ HandleTracking.serverStatus
      (exec (HandleTrackingStartup.onServerHandles handles) p)
    = HandleTracking.serverStatus p
  ∧ HandleTracking.onDidChangeTreeData
      (exec (HandleTrackingStartup.onServerHandles handles) p)
    = HandleTracking.onDidChangeTreeData p ++ replicate (length handles) None.
Proof.
induction handles as [|h handles IH]; intros p.
- simpl. by rewrite app_nil_r.
- destruct (ht_onServerHandles_cons h handles p) as [-> ->].
  destruct (IH (exec (HandleTracking.insertServer h) p))
    as (Hret & Hservers & Hstatus & Hfired).
  split; [done|]. split; [|split].
  + intros id. rewrite Hservers, last_handle_cons.
    destruct (last_handle id handles); [done|]. run_method.
    destruct (decide _) as [<-|Hne].
    * by rewrite get_set_eq.
    * by rewrite get_set_ne.
  + by rewrite Hstatus.
  + rewrite Hfired. run_method. by rewrite <-app_assoc.
Qed.

(** X7: the handles the control service lists at start-up. In the
    handle-tracking variant the callback returns, files each handle under
    its identifier, the last one listed winning, keeps the states, and fires
    one event without argument per handle listed. In the state-only variant
    it only fires these events: the provider is otherwise unchanged, so the
    listed servers are not among the roots. *)
Theorem onServerHandles_populates :
  (∀ (p : HandleTracking.provider) handles,
     outcome (HandleTrackingStartup.onServerHandles handles) p = Return tt
     ∧ (∀ id, JsMap.get id (HandleTracking.servers
                (exec (HandleTrackingStartup.onServerHandles handles) p))
              = match last_handle id handles with
                | Some h => Some h
                | None => JsMap.get id (HandleTracking.servers p)
                end)
     ∧ HandleTracking.serverStatus
         (exec (HandleTrackingStartup.onServerHandles handles) p)
       = HandleTracking.serverStatus p
     ∧ HandleTracking.onDidChangeTreeData
         (exec (HandleTrackingStartup.onServerHandles handles) p)
       = HandleTracking.onDidChangeTreeData p
           ++ replicate (length handles) None)
  ∧ (∀ (p : StateOnly.provider) handles,
       StateOnlyStartup.onServerHandles handles p
       = (Return tt,
          StateOnly.set_onDidChangeTreeData
            (λ fired, fired ++ replicate (length handles) None) p)).
Proof.
split.
- intros p handles. apply ht_onServerHandles.
- intros p handles. revert p.
  induction handles as [|h handles IH]; intros [].
  + unfold StateOnly.set_onDidChangeTreeData. simpl. by rewrite app_nil_r.
  + rewrite so_onServerHandles_cons, IH.
    unfold StateOnly.set_onDidChangeTreeData. run_method.
    by rewrite <-app_assoc.
Qed.

(** ** The tables and the items of servers *)

Lemma ht_publishStateEnum_call m p :
  HandleTracking.publishStateEnum (exec (HandleTrackingHistory.call m) p)
  = HandleTracking.publishStateEnum p.
Proof. destruct m; run_method; repeat case_match; simplify_eq/=; done. Qed.

Lemma so_publishStateEnum_call m p :
  StateOnly.publishStateEnum (exec (StateOnlyHistory.call m) p)
  = StateOnly.publishStateEnum p.
Proof. destruct m; run_method; repeat case_match; simplify_eq/=; done. Qed.

Lemma run_state_label_defined code :
  is_Some (run_state_label code) ↔ (0 ≤ code ≤ 4)%Z.
Proof.
unfold run_state_label, runStateEnum_init. simpl.
repeat (case_decide; [subst; split; [lia|eauto]|]).
split; [by intros ?%is_Some_None|lia].
Qed.

(** X8: no call writes the enum tables. In every reachable state of both
    variants they are the tables of the constructor, so the run-state table
    has a label exactly for the codes 0 to 4. *)
Theorem enum_tables_fixed :
  (∀ p : HandleTracking.provider,
     HandleTrackingHistory.reachable p →
     HandleTracking.runStateEnum p = runStateEnum_init
     ∧ HandleTracking.publishStateEnum p = publishStateEnum_init
     ∧ ∀ code, is_Some (JsMap.get code (HandleTracking.runStateEnum p))
               ↔ (0 ≤ code ≤ 4)%Z)
  ∧ (∀ p : StateOnly.provider,
       StateOnlyHistory.reachable p →
       StateOnly.runStateEnum p = runStateEnum_init
       ∧ StateOnly.publishStateEnum p = publishStateEnum_init
       ∧ ∀ code, is_Some (JsMap.get code (StateOnly.runStateEnum p))
                 ↔ (0 ≤ code ≤ 4)%Z).
Proof.
split; intros p Hp.
- assert (HandleTracking.publishStateEnum p = publishStateEnum_init) as Hpub.
  { induction Hp as [w show|m p _ IH]; [done|].
    by rewrite ht_publishStateEnum_call. }
  split; [by apply ht_reachable_runStateEnum|]. split; [done|].
  intros code. rewrite (ht_reachable_runStateEnum p Hp).
  apply run_state_label_defined.
- assert (StateOnly.publishStateEnum p = publishStateEnum_init) as Hpub.
  { induction Hp as [w show|m p _ IH]; [done|].
    by rewrite so_publishStateEnum_call. }
  split; [by apply so_reachable_runStateEnum|]. split; [done|].
  intros code. rewrite (so_reachable_runStateEnum p Hp).
  apply run_state_label_defined.
Qed.

Lemma enum_tables_fixed_witness :
  StateOnly.publishStateEnum
    (dispatch (StateOnlyHistory.call <$>
       [UpdateServer (started tomcat); RemoveServer tomcat;
        AddServerOutput (says tomcat "a")])
       (StateOnly.constructor [] true))
  = publishStateEnum_init.
Proof.
apply (proj2 enum_tables_fixed).
do 3 apply StateOnlyHistory.reachable_call. apply StateOnlyHistory.reachable_new.
Defined.

(** X9: the item of a server. In every reachable state, the handle-tracking
    variant renders a handle with a non-empty identifier, and the state-only
    variant a server state, as [id:typeName(label)] with the label and the
    context tag taken from the run-state table at the code of the state the
    registry holds for the identifier (0 without state). When that code is
    not one of 0 to 4 the label reads [id:typeName(undefined)] and the item
    has no context tag. *)
Theorem server_item :
  (∀ (p : HandleTracking.provider) h,
     HandleTrackingHistory.reachable p →
     Protocol.ServerHandle.id h ≠ "" →
     let code := registry_code
       (JsMap.get (Protocol.ServerHandle.id h) (HandleTracking.serverStatus p)) in
     HandleTracking.getTreeItem (HandleNode h) p
     = Some (vscode.mkTreeItem
         (Protocol.ServerHandle.id h +:+ ":" +:+
          Protocol.ServerType.visibleName (Protocol.ServerHandle.type h) +:+
          "(" +:+ template (run_state_label code) +:+ ")")
         server_light (run_state_label code))
     ∧ (¬ (0 ≤ code ≤ 4)%Z →
        template (run_state_label code) = "undefined"
        ∧ run_state_label code = None))
  ∧ (∀ (p : StateOnly.provider) s,
       StateOnlyHistory.reachable p →
       let h := Protocol.ServerState.server s in
       let code := registry_code
         (JsMap.get (Protocol.ServerHandle.id h) (StateOnly.serverStatus p)) in
       StateOnly.getTreeItem (StateNode s) p
       = Some (vscode.mkTreeItem
           (Protocol.ServerHandle.id h +:+ ":" +:+
            Protocol.ServerType.visibleName (Protocol.ServerHandle.type h) +:+
            "(" +:+ template (run_state_label code) +:+ ")")
           server_light (run_state_label code))
       ∧ (¬ (0 ≤ code ≤ 4)%Z →
          template (run_state_label code) = "undefined"
          ∧ run_state_label code = None)).
Proof.
assert (∀ code, ¬ (0 ≤ code ≤ 4)%Z →
  template (run_state_label code) = "undefined"
  ∧ run_state_label code = None) as Hout.
{ intros code Hcode. destruct (run_state_label code) eqn:Hlabel; [|done].
  destruct Hcode. apply run_state_label_defined. by rewrite Hlabel. }
split.
- intros p h Hp%ht_reachable_runStateEnum Hid code. split; [|apply Hout].
  unfold HandleTracking.getTreeItem. simpl.
  apply String.eqb_neq in Hid. rewrite Hid, Hp. reflexivity.
- intros p s Hp%so_reachable_runStateEnum h code. split; [|apply Hout].
  unfold StateOnly.getTreeItem. simpl. rewrite Hp. reflexivity.
Qed.

Lemma server_item_witness :
  let p := dispatch (StateOnlyHistory.call <$>
             [UpdateServer (Protocol.ServerState.mk tomcat 7 [])])
             (StateOnly.constructor [] false) in
  StateOnly.getTreeItem (StateNode (started tomcat)) p
  = Some (vscode.mkTreeItem "s1:Tomcat(undefined)" server_light None)
  ∧ HandleTracking.getTreeItem (HandleNode wildfly)
      (HandleTracking.constructor [] false)
    = Some (vscode.mkTreeItem "s2:WildFly(Unknown)" server_light (Some "Unknown")).
Proof.
intros p. split.
- apply (proj2 server_item p (started tomcat)).
  apply StateOnlyHistory.reachable_call, StateOnlyHistory.reachable_new.
- apply (proj1 server_item (HandleTracking.constructor [] false) wildfly).
  + apply HandleTrackingHistory.reachable_new.
  + discriminate.
Defined.

(** X10: an update shows in the tree at once. In a reachable state, after
    [updateServer] for an event, the state-only variant renders every node
    of the server of the event, also one that carries an older state, with
    the run-state label of the event; the handle-tracking variant does the
    same for the handle of a server that [servers] holds. *)
Theorem item_after_update :
  (∀ (p : StateOnly.provider) event s,
     StateOnlyHistory.reachable p →
     Protocol.ServerState.server s = Protocol.ServerState.server event →
     let h := Protocol.ServerState.server event in
     let code := Protocol.ServerState.state event in
     StateOnly.getTreeItem (StateNode s) (exec (StateOnly.updateServer event) p)
     = Some (vscode.mkTreeItem
         (Protocol.ServerHandle.id h +:+ ":" +:+
          Protocol.ServerType.visibleName (Protocol.ServerHandle.type h) +:+
          "(" +:+ template (run_state_label code) +:+ ")")
         server_light (run_state_label code)))
  ∧ (∀ (p : HandleTracking.provider) event h,
       HandleTrackingHistory.reachable p →
       JsMap.get (Protocol.ServerHandle.id (Protocol.ServerState.server event))
         (HandleTracking.servers p) = Some h →
       Protocol.ServerHandle.id h ≠ "" →
       let code := Protocol.ServerState.state event in
       HandleTracking.getTreeItem (HandleNode h)
         (exec (HandleTracking.updateServer event) p)
       = Some (vscode.mkTreeItem
           (Protocol.ServerHandle.id h +:+ ":" +:+
            Protocol.ServerType.visibleName (Protocol.ServerHandle.type h) +:+
            "(" +:+ template (run_state_label code) +:+ ")")
           server_light (run_state_label code))).
Proof.
split.
- intros p event s Hp Hs h code.
  assert (StateOnlyHistory.reachable (exec (StateOnly.updateServer event) p))
    as Hp' by apply (StateOnlyHistory.reachable_call (UpdateServer event) p Hp).
  destruct (proj2 server_item _ s Hp') as [-> _].
  destruct (so_updateServer event p) as (_ & -> & _).
  rewrite Hs. subst h code. by rewrite get_set_eq.
- intros p event h Hp Hh Hid code.
  assert (HandleTrackingHistory.reachable
    (exec (HandleTracking.updateServer event) p))
    as Hp' by apply (HandleTrackingHistory.reachable_call (UpdateServer event) p Hp).
  destruct (proj1 server_item _ h Hp' Hid) as [-> _].
  destruct (ht_updateServer_known event h p Hh) as (_ & _ & -> & _).
  subst code. by rewrite get_set_eq.
Qed.

Lemma item_after_update_witness :
  StateOnly.getTreeItem (StateNode (starting tomcat))
    (exec (StateOnly.updateServer (started tomcat))
       (exec (StateOnly.updateServer (starting tomcat))
          (StateOnly.constructor [] false)))
  = Some (vscode.mkTreeItem "s1:Tomcat(Started)" server_light (Some "Started"))
  ∧ HandleTracking.getTreeItem (HandleNode tomcat)
      (exec (HandleTracking.updateServer (started tomcat))
         (exec (HandleTracking.insertServer tomcat)
            (HandleTracking.constructor [] false)))
    = Some (vscode.mkTreeItem "s1:Tomcat(Started)" server_light (Some "Started")).
Proof.
split.
- apply (proj1 item_after_update
    (exec (StateOnly.updateServer (starting tomcat))
       (StateOnly.constructor [] false)) (started tomcat) (starting tomcat)).
  + apply (StateOnlyHistory.reachable_call (UpdateServer (starting tomcat))),
      StateOnlyHistory.reachable_new.
  + reflexivity.
- apply (proj2 item_after_update
    (exec (HandleTracking.insertServer tomcat)
       (HandleTracking.constructor [] false)) (started tomcat) tomcat).
  + apply (HandleTrackingHistory.reachable_call (InsertServer tomcat)),
      HandleTrackingHistory.reachable_new.
  + reflexivity.
  + discriminate.
Defined.

(** ** Channel tables *)

Lemma string_app_cons c s t : String c s +:+ t = String c (s +:+ t).
Proof. reflexivity. Qed.

Lemma string_app_nil_r s : s +:+ "" = s.
Proof. induction s as [|c s IH]; [done|]. by rewrite string_app_cons, IH. Qed.

Lemma string_app_assoc s t u : (s +:+ t) +:+ u = s +:+ t +:+ u.
Proof.
induction s as [|c s IH]; [done|]. by rewrite !string_app_cons, IH.
Qed.

Section ChannelTables.
Implicit Types (table : JsMap.t string nat) (w : list vscode.OutputChannel).

Lemma wf_alter table w f c :
  keeps f → channels_wf table w → channels_wf table (alter f c w).
Proof.
intros Hf [Hrefs Hinj]. split; [|done].
intros id c0 (ch & Hch & Hlive & Hname)%Hrefs.
rewrite list_lookup_alter. case_decide as Hc; [|eauto].
subst c0. rewrite Hch. exists (f ch). destruct (Hf ch) as [-> ->]. eauto.
Qed.

Lemma wf_delete table w id :
  channels_wf table w → channels_wf (JsMap.delete id table) w.
Proof.
intros [Hrefs Hinj].
assert (∀ id' c, JsMap.get id' (JsMap.delete id table) = Some c →
                 JsMap.get id' table = Some c) as Hsub.
{ intros id' c. destruct (decide (id = id')) as [<-|Hne].
  - by rewrite get_delete_eq.
  - by rewrite get_delete_ne. }
split.
- intros id' c Hget%Hsub. by apply Hrefs.
- intros id1 id2 c H1%Hsub H2%Hsub. by eapply Hinj.
Qed.

Lemma wf_release table w id c :
  channels_wf table w → JsMap.get id table = Some c →
  channels_wf (JsMap.delete id table)
    (alter vscode.dispose c (alter vscode.clear c w)).
Proof.
intros Hwf Hget. pose proof (wf_delete _ _ id Hwf) as [Hrefs Hinj].
destruct Hwf as [_ Hinj0]. split; [|done].
intros id' c' Hget'. destruct (Hrefs _ _ Hget') as (ch & Hch & Hlive & Hname).
exists ch. split; [|done].
assert (c ≠ c') as Hne.
{ intros <-. destruct (decide (id = id')) as [<-|Hid].
  - by rewrite get_delete_eq in Hget'.
  - rewrite get_delete_ne in Hget' by done. by destruct Hid; eapply Hinj0. }
by rewrite !list_lookup_alter_ne.
Qed.

Lemma wf_create table w id ch :
  channels_wf table w → JsMap.get id table = None →
  vscode.disposed ch = false → vscode.name ch = "Server: " +:+ id →
  channels_wf (JsMap.set id (length w) table) (w ++ [ch]).
Proof.
intros [Hrefs Hinj] Hget Hlive Hname.
assert (∀ id' c, id ≠ id' →
          JsMap.get id' (JsMap.set id (length w) table) = Some c →
          JsMap.get id' table = Some c ∧ c < length w) as Hold.
{ intros id' c Hne. rewrite get_set_ne by done. intros Hc. split; [done|].
  destruct (Hrefs _ _ Hc) as (ch' & Hch' & _). by eapply lookup_lt_Some. }
split.
- intros id' c. destruct (decide (id = id')) as [<-|Hne].
  + rewrite get_set_eq. intros [= <-]. exists ch. by rewrite lookup_last.
  + intros [Hc Hlt]%Hold; [|done].
    destruct (Hrefs _ _ Hc) as (ch' & Hch' & ?). exists ch'.
    by rewrite lookup_app_l.
- intros id1 id2 c.
  destruct (decide (id = id1)) as [<-|H1], (decide (id = id2)) as [<-|H2];
    try done.
  + rewrite get_set_eq. intros [= <-] [_ Hlt]%Hold; [lia|done].
  + rewrite get_set_eq. intros [_ Hlt]%Hold [= <-]; [lia|done].
  + intros [Hc1 _]%Hold [Hc2 _]%Hold; try done. by eapply Hinj.
Qed.

Lemma wf_live table w id c0 c ch :
  channels_wf table w → JsMap.get id table = Some c0 →
  w !! c = Some ch → vscode.disposed ch = true → c0 ≠ c.
Proof.
intros [Hrefs _] (ch0 & Hch0 & Hlive & _)%Hrefs Hch Hdisposed <-.
congruence.
Qed.

Lemma text_alter_same table w f c id :
  (∀ ch, vscode.content (f ch) = vscode.content ch) →
  channel_text table (alter f c w) id = channel_text table w id.
Proof.
intros Hf. unfold channel_text. destruct (JsMap.get id table) as [c'|]; [|done].
rewrite list_lookup_alter. case_decide as Hc; [|done].
subst c'. destruct (w !! c) as [ch|]; [|done]. apply Hf.
Qed.

Lemma text_alter table w f id c ch id' :
  channels_wf table w → JsMap.get id table = Some c → w !! c = Some ch →
  channel_text table (alter f c w) id'
  = if decide (id = id') then vscode.content (f ch) else channel_text table w id'.
Proof.
intros [_ Hinj] Hget Hch. unfold channel_text.
destruct (decide (id = id')) as [<-|Hne].
- by rewrite Hget, list_lookup_alter_eq, Hch.
- destruct (JsMap.get id' table) as [c'|] eqn:Hget'; [|done].
  rewrite list_lookup_alter_ne; [done|].
  intros <-. by destruct Hne; eapply Hinj.
Qed.

Lemma text_create table w id ch id' :
  channels_wf table w → JsMap.get id table = None →
  channel_text (JsMap.set id (length w) table) (w ++ [ch]) id'
  = if decide (id = id') then vscode.content ch else channel_text table w id'.
Proof.
intros [Hrefs _] Hget. unfold channel_text.
destruct (decide (id = id')) as [<-|Hne].
- by rewrite get_set_eq, lookup_last.
- rewrite get_set_ne by done.
  destruct (JsMap.get id' table) as [c'|] eqn:Hget'; [|done].
  destruct (Hrefs _ _ Hget') as (ch' & Hch' & _).
  by rewrite lookup_app_l by (by eapply lookup_lt_Some).
Qed.

End ChannelTables.

Lemma keeps_clear : keeps vscode.clear.
Proof. by intros []. Qed.

Lemma keeps_show : keeps vscode.show.
Proof. by intros []. Qed.

Lemma keeps_append text : keeps (vscode.append text).
Proof. by intros []. Qed.

Ltac channel_table_step :=
  repeat (apply wf_alter; [first [apply keeps_clear | apply keeps_show
                                 | apply keeps_append]|]);
  first [ done
        | by apply wf_delete
        | by apply wf_release
        | apply wf_create; [done..] ].

Lemma ht_channels_wf p :
  HandleTrackingHistory.reachable p →
  channels_wf (HandleTracking.serverOutputChannels p) (HandleTracking.channels p).
Proof.
induction 1 as [w show|m p _ IH]; [by split|].
destruct m; run_method; repeat case_match; simplify_eq/=; channel_table_step.
Qed.

Lemma so_channels_wf p :
  StateOnlyHistory.reachable p →
  channels_wf (StateOnly.serverOutputChannels p) (StateOnly.channels p).
Proof.
induction 1 as [w show|m p _ IH]; [by split|].
destruct m; run_method; repeat case_match; simplify_eq/=; channel_table_step.
Qed.

(** X11: the channel table is sound in every reachable state of both
    variants: each of its references is to a channel of the window that is
    not disposed and is named [Server: ] followed by the identifier, and two
    servers never share a channel. *)
Theorem channel_table_sound :
  (∀ p : HandleTracking.provider,
     HandleTrackingHistory.reachable p →
     channels_wf (HandleTracking.serverOutputChannels p)
       (HandleTracking.channels p))
  ∧ (∀ p : StateOnly.provider,
       StateOnlyHistory.reachable p →
       channels_wf (StateOnly.serverOutputChannels p) (StateOnly.channels p)).
Proof. split; [apply ht_channels_wf|apply so_channels_wf]. Qed.

Lemma channel_table_sound_witness :
  channels_wf
    (StateOnly.serverOutputChannels
       (dispatch (StateOnlyHistory.call <$>
          [AddServerOutput (says tomcat "a"); RemoveServer tomcat;
           AddServerOutput (says wildfly "b"); AddServerOutput (says tomcat "c")])
          (StateOnly.constructor [] true)))
    (StateOnly.channels
       (dispatch (StateOnlyHistory.call <$>
          [AddServerOutput (says tomcat "a"); RemoveServer tomcat;
           AddServerOutput (says wildfly "b"); AddServerOutput (says tomcat "c")])
          (StateOnly.constructor [] true))).
Proof.
apply (proj2 channel_table_sound).
do 4 apply StateOnlyHistory.reachable_call. apply StateOnlyHistory.reachable_new.
Defined.

Ltac disposed_step IH Hch Hdisposed :=
  run_method; repeat case_match; simplify_eq/=; try done;
  repeat match goal with
  | Hget : JsMap.get _ _ = Some ?c0 |- context [alter _ ?c0 _] =>
      rewrite (list_lookup_alter_ne _ _ c0)
        by exact (wf_live _ _ _ _ _ _ IH Hget Hch Hdisposed)
  | |- context [alter _ (length ?w) (?w ++ _)] =>
      rewrite (list_lookup_alter_ne _ _ (length w))
        by (apply lookup_lt_Some in Hch; lia)
  end;
  try done;
  by rewrite lookup_app_l by (by eapply lookup_lt_Some).

Lemma ht_disposed_call m p c ch :
  HandleTrackingHistory.reachable p →
  HandleTracking.channels p !! c = Some ch → vscode.disposed ch = true →
  HandleTracking.channels (exec (HandleTrackingHistory.call m) p) !! c = Some ch.
Proof.
intros IH%ht_channels_wf Hch Hdisposed.
destruct m; disposed_step IH Hch Hdisposed.
Qed.

Lemma so_disposed_call m p c ch :
  StateOnlyHistory.reachable p →
  StateOnly.channels p !! c = Some ch → vscode.disposed ch = true →
  StateOnly.channels (exec (StateOnlyHistory.call m) p) !! c = Some ch.
Proof.
intros IH%so_channels_wf Hch Hdisposed.
destruct m; disposed_step IH Hch Hdisposed.
Qed.

Lemma ht_reachable_dispatch ms : ∀ p,
  HandleTrackingHistory.reachable p →
  HandleTrackingHistory.reachable (dispatch (HandleTrackingHistory.call <$> ms) p).
Proof.
induction ms as [|m ms IH]; intros p Hp; [done|].
rewrite fmap_cons, dispatch_cons. by apply IH, HandleTrackingHistory.reachable_call.
Qed.

Lemma so_reachable_dispatch ms : ∀ p,
  StateOnlyHistory.reachable p →
  StateOnlyHistory.reachable (dispatch (StateOnlyHistory.call <$> ms) p).
Proof.
induction ms as [|m ms IH]; intros p Hp; [done|].
rewrite fmap_cons, dispatch_cons. by apply IH, StateOnlyHistory.reachable_call.
Qed.

(** X12: a disposed channel is left alone for good. In a reachable state
    of either variant, a channel of the window that is disposed is the same
    after any further sequence of calls: no text is appended to it, it is
    not cleared and not shown again. *)
Theorem disposed_channel_final :
  (∀ (p : HandleTracking.provider) ms c ch,
     HandleTrackingHistory.reachable p →
     HandleTracking.channels p !! c = Some ch →
     vscode.disposed ch = true →
     HandleTracking.channels
       (dispatch (HandleTrackingHistory.call <$> ms) p) !! c = Some ch)
  ∧ (∀ (p : StateOnly.provider) ms c ch,
       StateOnlyHistory.reachable p →
       StateOnly.channels p !! c = Some ch →
       vscode.disposed ch = true →
       StateOnly.channels
         (dispatch (StateOnlyHistory.call <$> ms) p) !! c = Some ch).
Proof.
split; intros p ms; revert p;
  (induction ms as [|m ms IH]; intros p c ch Hp Hch Hdisposed; [done|]);
  rewrite fmap_cons, dispatch_cons.
- apply IH; [by apply HandleTrackingHistory.reachable_call| |done].
  by apply ht_disposed_call.
- apply IH; [by apply StateOnlyHistory.reachable_call| |done].
  by apply so_disposed_call.
Qed.

Lemma disposed_channel_final_witness :
  let p := dispatch (StateOnlyHistory.call <$>
             [AddServerOutput (says tomcat "a"); RemoveServer tomcat])
             (StateOnly.constructor [] true) in
  StateOnly.channels
    (dispatch (StateOnlyHistory.call <$>
       [AddServerOutput (says tomcat "b"); UpdateServer (starting tomcat);
        ShowOutput tomcat]) p) !! 0
  = Some (vscode.mkChannel "Server: s1" "" false true).
Proof.
intros p. apply (proj2 disposed_channel_final p).
- do 2 apply StateOnlyHistory.reachable_call. apply StateOnlyHistory.reachable_new.
- reflexivity.
- reflexivity.
Defined.

Section StateOnlyTexts.
Import StateOnly StateOnlyHistory.

Lemma so_output_text output p id :
  reachable p →
  channel_text (serverOutputChannels (exec (addServerOutput output) p))
    (channels (exec (addServerOutput output) p)) id
  = channel_text (serverOutputChannels p) (channels p) id
    +:+ (if decide (Protocol.ServerHandle.id
                      (Protocol.ServerProcessOutput.server output) = id)
         then Protocol.ServerProcessOutput.text output else "").
Proof.
intros Hwf%so_channels_wf.
destruct (JsMap.get (Protocol.ServerHandle.id
  (Protocol.ServerProcessOutput.server output)) (serverOutputChannels p))
  as [c|] eqn:Hget.
- destruct (so_addServerOutput_next output c p Hget) as [-> ->].
  destruct (proj1 Hwf _ _ Hget) as (ch & Hch & _).
  rewrite (text_alter _ _ _ _ _ _ _ Hwf Hget Hch). simpl.
  destruct (decide _) as [<-|Hne]; [|by rewrite string_app_nil_r].
  unfold channel_text. by rewrite Hget, Hch.
- destruct (so_addServerOutput_first output p Hget) as (-> & -> & _).
  rewrite (text_create _ _ _ _ _ Hwf Hget). simpl.
  destruct (decide _) as [<-|Hne]; [|by rewrite string_app_nil_r].
  unfold channel_text. by rewrite Hget.
Qed.

Lemma so_outputs_text outputs : ∀ p id,
  reachable p →
  channel_text
    (serverOutputChannels (dispatch (addServerOutput <$> outputs) p))
    (channels (dispatch (addServerOutput <$> outputs) p)) id
  = channel_text (serverOutputChannels p) (channels p) id
    +:+ texts_of id outputs.
Proof.
induction outputs as [|output outputs IH]; intros p id Hp.
- simpl. by rewrite string_app_nil_r.
- rewrite fmap_cons, dispatch_cons, IH
    by apply (reachable_call (AddServerOutput output) p Hp).
  rewrite so_output_text by done. simpl.
  destruct (decide _); by rewrite ?string_app_nil_r, ?string_app_assoc.
Qed.

End StateOnlyTexts.

Section HandleTrackingTexts.
Import HandleTracking HandleTrackingHistory.

Lemma ht_output_text output p id :
  reachable p →
  channel_text (serverOutputChannels (exec (addServerOutput output) p))
    (channels (exec (addServerOutput output) p)) id
  = channel_text (serverOutputChannels p) (channels p) id
    +:+ (if decide (Protocol.ServerHandle.id
                      (Protocol.ServerProcessOutput.server output) = id)
         then Protocol.ServerProcessOutput.text output else "").
Proof.
intros Hwf%ht_channels_wf.
destruct (JsMap.get (Protocol.ServerHandle.id
  (Protocol.ServerProcessOutput.server output)) (serverOutputChannels p))
  as [c|] eqn:Hget.
- destruct (ht_addServerOutput_next output c p Hget) as [-> ->].
  destruct (proj1 Hwf _ _ Hget) as (ch & Hch & _).
  rewrite (text_alter _ _ _ _ _ _ _ Hwf Hget Hch). simpl.
  destruct (decide _) as [<-|Hne]; [|by rewrite string_app_nil_r].
  unfold channel_text. by rewrite Hget, Hch.
- destruct (ht_addServerOutput_first output p Hget) as (-> & -> & _).
  rewrite (text_create _ _ _ _ _ Hwf Hget). simpl.
  destruct (decide _) as [<-|Hne]; [|by rewrite string_app_nil_r].
  unfold channel_text. by rewrite Hget.
Qed.

Lemma ht_outputs_text outputs : ∀ p id,
  reachable p →
  channel_text
    (serverOutputChannels (dispatch (addServerOutput <$> outputs) p))
    (channels (dispatch (addServerOutput <$> outputs) p)) id
  = channel_text (serverOutputChannels p) (channels p) id
    +:+ texts_of id outputs.
Proof.
induction outputs as [|output outputs IH]; intros p id Hp.
- simpl. by rewrite string_app_nil_r.
- rewrite fmap_cons, dispatch_cons, IH
    by apply (reachable_call (AddServerOutput output) p Hp).
  rewrite ht_output_text by done. simpl.
  destruct (decide _); by rewrite ?string_app_nil_r, ?string_app_assoc.
Qed.

End HandleTrackingTexts.

(** X13: output accumulates per server. From a reachable state of either
    variant, after any sequence of [addServerOutput] calls the channel of a
    server holds what it held before followed by the texts of the outputs
    of that server, in their order of arrival; outputs of other servers in
    between do not show in it. *)
Theorem output_accumulates :
  (∀ (p : HandleTracking.provider) outputs id,
     HandleTrackingHistory.reachable p →
     channel_text
       (HandleTracking.serverOutputChannels
          (dispatch (HandleTracking.addServerOutput <$> outputs) p))
       (HandleTracking.channels
          (dispatch (HandleTracking.addServerOutput <$> outputs) p)) id
     = channel_text (HandleTracking.serverOutputChannels p)
         (HandleTracking.channels p) id
       +:+ texts_of id outputs)
  ∧ (∀ (p : StateOnly.provider) outputs id,
       StateOnlyHistory.reachable p →
       channel_text
         (StateOnly.serverOutputChannels
            (dispatch (StateOnly.addServerOutput <$> outputs) p))
         (StateOnly.channels
            (dispatch (StateOnly.addServerOutput <$> outputs) p)) id
       = channel_text (StateOnly.serverOutputChannels p)
           (StateOnly.channels p) id
         +:+ texts_of id outputs).
Proof.
split; intros p outputs id Hp.
- by apply ht_outputs_text.
- by apply so_outputs_text.
Qed.

Lemma output_accumulates_witness :
  channel_text
    (StateOnly.serverOutputChannels
       (dispatch (StateOnly.addServerOutput <$>
          [says tomcat "a"; says wildfly "x"; says tomcat "b"; says tomcat "c"])
          (StateOnly.constructor [] false)))
    (StateOnly.channels
       (dispatch (StateOnly.addServerOutput <$>
          [says tomcat "a"; says wildfly "x"; says tomcat "b"; says tomcat "c"])
          (StateOnly.constructor [] false))) "s1"
  = "abc".
Proof.
rewrite (proj2 output_accumulates).
- reflexivity.
- apply StateOnlyHistory.reachable_new.
Defined.

Section ChannelViews.
Implicit Types (table : JsMap.t string nat) (w : list vscode.OutputChannel).

Lemma visible_alter table w f id c ch id' :
  channels_wf table w → JsMap.get id table = Some c → w !! c = Some ch →
  channel_visible table (alter f c w) id'
  = if decide (id = id') then vscode.visible (f ch)
    else channel_visible table w id'.
Proof.
intros [_ Hinj] Hget Hch. unfold channel_visible.
destruct (decide (id = id')) as [<-|Hne].
- by rewrite Hget, list_lookup_alter_eq, Hch.
- destruct (JsMap.get id' table) as [c'|] eqn:Hget'; [|done].
  rewrite list_lookup_alter_ne; [done|].
  intros <-. by destruct Hne; eapply Hinj.
Qed.

Lemma visible_create table w id ch id' :
  channels_wf table w → JsMap.get id table = None →
  channel_visible (JsMap.set id (length w) table) (w ++ [ch]) id'
  = if decide (id = id') then vscode.visible ch
    else channel_visible table w id'.
Proof.
intros [Hrefs _] Hget. unfold channel_visible.
destruct (decide (id = id')) as [<-|Hne].
- by rewrite get_set_eq, lookup_last.
- rewrite get_set_ne by done.
  destruct (JsMap.get id' table) as [c'|] eqn:Hget'; [|done].
  destruct (Hrefs _ _ Hget') as (ch' & Hch' & _).
  by rewrite lookup_app_l by (by eapply lookup_lt_Some).
Qed.

End ChannelViews.

(** X14: what a state update does to the channels. It never changes the
    channel table. From a reachable state, an update to [Starting] leaves
    the channel of its server empty; any other update, and any update seen
    from the channels of the other servers, leaves the texts as they were.
    In the handle-tracking variant this is for an update that returns, that
    is for a server with a handle in [servers]. *)
Theorem updateServer_channel_text :
  (∀ (p : StateOnly.provider) event id,
     StateOnlyHistory.reachable p →
     let p' := exec (StateOnly.updateServer event) p in
     StateOnly.serverOutputChannels p' = StateOnly.serverOutputChannels p
     ∧ channel_text (StateOnly.serverOutputChannels p') (StateOnly.channels p') id
       = if decide (Protocol.ServerHandle.id (Protocol.ServerState.server event)
                    = id
                    ∧ Protocol.ServerState.state event = ServerState.STARTING)
         then ""
         else channel_text (StateOnly.serverOutputChannels p)
                (StateOnly.channels p) id)
  ∧ (∀ (p : HandleTracking.provider) event id,
       HandleTrackingHistory.reachable p →
       is_Some (JsMap.get
         (Protocol.ServerHandle.id (Protocol.ServerState.server event))
         (HandleTracking.servers p)) →
       let p' := exec (HandleTracking.updateServer event) p in
       HandleTracking.serverOutputChannels p'
       = HandleTracking.serverOutputChannels p
       ∧ channel_text (HandleTracking.serverOutputChannels p')
           (HandleTracking.channels p') id
         = if decide (Protocol.ServerHandle.id
                        (Protocol.ServerState.server event) = id
                      ∧ Protocol.ServerState.state event = ServerState.STARTING)
           then ""
           else channel_text (HandleTracking.serverOutputChannels p)
                  (HandleTracking.channels p) id).
Proof.
split.
- intros p event id Hwf%so_channels_wf p'. subst p'.
  destruct (so_updateServer event p) as (_ & _ & _ & Hmap).
  split; [done|]. rewrite Hmap. clear Hmap.
  destruct (JsMap.get (Protocol.ServerHandle.id
    (Protocol.ServerState.server event)) (StateOnly.serverOutputChannels p))
    as [c|] eqn:Hget;
  destruct (decide (Protocol.ServerState.state event = ServerState.STARTING))
    as [Hstate|Hstate].
  + rewrite (so_updateServer_starting _ _ _ Hget Hstate).
    destruct (proj1 Hwf _ _ Hget) as (ch & Hch & _).
    rewrite (text_alter _ _ _ _ _ _ _ Hwf Hget Hch).
    destruct (decide (_ = id)) as [<-|Hne].
    * by rewrite decide_True.
    * rewrite decide_False; [done|]. by intros [? _].
  + rewrite decide_False by (by intros [_ ?]).
    run_method. rewrite Hget. apply Z.eqb_neq in Hstate. by rewrite Hstate.
  + run_method. rewrite Hget. simpl. case_decide as Hid; [|done].
    destruct Hid as [<- _]. unfold channel_text. by rewrite Hget.
  + rewrite decide_False by (by intros [_ ?]).
    run_method. by rewrite Hget.
- intros p event id Hp [value Hvalue] p'. subst p'.
  pose proof (ht_reachable_handles_keyed p Hp _ _ Hvalue) as Hkey.
  pose proof (ht_channels_wf p Hp) as Hwf.
  destruct (ht_updateServer_known event value p Hvalue) as (_ & _ & _ & _ & Hmap).
  split; [done|]. rewrite Hmap. clear Hmap.
  destruct (JsMap.get (Protocol.ServerHandle.id
    (Protocol.ServerState.server event)) (HandleTracking.serverOutputChannels p))
    as [c|] eqn:Hget;
  destruct (decide (Protocol.ServerState.state event = ServerState.STARTING))
    as [Hstate|Hstate].
  + rewrite <-Hkey in Hget.
    rewrite (ht_updateServer_starting _ _ _ _ Hvalue Hget Hstate).
    destruct (proj1 Hwf _ _ Hget) as (ch & Hch & _).
    rewrite (text_alter _ _ _ _ _ _ _ Hwf Hget Hch). rewrite Hkey.
    destruct (decide (_ = id)) as [<-|Hne].
    * by rewrite decide_True.
    * rewrite decide_False; [done|]. by intros [? _].
  + rewrite decide_False by (by intros [_ ?]).
    run_method. rewrite Hvalue. simpl. rewrite Hkey, Hget.
    apply Z.eqb_neq in Hstate. by rewrite Hstate.
  + run_method. rewrite Hvalue. simpl. rewrite Hkey, Hget. simpl.
    case_decide as Hid; [|done].
    destruct Hid as [<- _]. unfold channel_text. by rewrite Hget.
  + rewrite decide_False by (by intros [_ ?]).
    run_method. rewrite Hvalue. simpl. by rewrite Hkey, Hget.
Qed.

Lemma updateServer_channel_text_witness :
  let p := dispatch (HandleTrackingHistory.call <$>
             [InsertServer tomcat; InsertServer wildfly;
              AddServerOutput (says tomcat "a");
              AddServerOutput (says wildfly "b")])
             (HandleTracking.constructor [] false) in
  channel_text
    (HandleTracking.serverOutputChannels
       (exec (HandleTracking.updateServer (starting tomcat)) p))
    (HandleTracking.channels
       (exec (HandleTracking.updateServer (starting tomcat)) p)) "s2"
  = "b".
Proof.
intros p.
assert (HandleTrackingHistory.reachable p) as Hp.
{ do 4 apply HandleTrackingHistory.reachable_call.
  apply HandleTrackingHistory.reachable_new. }
destruct (proj2 updateServer_channel_text p (starting tomcat) "s2" Hp
  (ex_intro _ tomcat eq_refl)) as [_ Htext].
rewrite Htext. reflexivity.
Defined.

(** X15: [showOutput] returns in both variants and only brings a channel
    into view. Without channel for the server the provider is unchanged; in
    every case the channel table, the number of channels, the texts, the
    registry and the events fired are what they were; and from a reachable
    state the channel of the server, when it has one, is in view
    afterwards. *)
Theorem showOutput_reveals :
  (∀ (p : StateOnly.provider) server,
     let p' := exec (StateOnly.showOutput server) p in
     outcome (StateOnly.showOutput server) p = Return tt
     ∧ (JsMap.get (Protocol.ServerHandle.id server)
          (StateOnly.serverOutputChannels p) = None → p' = p)
     ∧ StateOnly.serverOutputChannels p' = StateOnly.serverOutputChannels p
     ∧ length (StateOnly.channels p') = length (StateOnly.channels p)
     ∧ StateOnly.serverStatus p' = StateOnly.serverStatus p
     ∧ StateOnly.onDidChangeTreeData p' = StateOnly.onDidChangeTreeData p
     ∧ (∀ id, channel_text (StateOnly.serverOutputChannels p')
                (StateOnly.channels p') id
              = channel_text (StateOnly.serverOutputChannels p)
                  (StateOnly.channels p) id)
     ∧ (StateOnlyHistory.reachable p →
        is_Some (JsMap.get (Protocol.ServerHandle.id server)
                   (StateOnly.serverOutputChannels p)) →
        channel_visible (StateOnly.serverOutputChannels p')
          (StateOnly.channels p') (Protocol.ServerHandle.id server) = true))
  ∧ (∀ (p : HandleTracking.provider) server,
       let p' := exec (HandleTracking.showOutput server) p in
       outcome (HandleTracking.showOutput server) p = Return tt
       ∧ (JsMap.get (Protocol.ServerHandle.id server)
            (HandleTracking.serverOutputChannels p) = None → p' = p)
       ∧ HandleTracking.serverOutputChannels p'
         = HandleTracking.serverOutputChannels p
       ∧ length (HandleTracking.channels p') = length (HandleTracking.channels p)
       ∧ HandleTracking.serverStatus p' = HandleTracking.serverStatus p
       ∧ HandleTracking.servers p' = HandleTracking.servers p
       ∧ HandleTracking.onDidChangeTreeData p'
         = HandleTracking.onDidChangeTreeData p
       ∧ (∀ id, channel_text (HandleTracking.serverOutputChannels p')
                  (HandleTracking.channels p') id
                = channel_text (HandleTracking.serverOutputChannels p)
                    (HandleTracking.channels p) id)
       ∧ (HandleTrackingHistory.reachable p →
          is_Some (JsMap.get (Protocol.ServerHandle.id server)
                     (HandleTracking.serverOutputChannels p)) →
          channel_visible (HandleTracking.serverOutputChannels p')
            (HandleTracking.channels p') (Protocol.ServerHandle.id server)
          = true)).
Proof.
split; intros p server p'; subst p'; run_method.
- destruct (JsMap.get (Protocol.ServerHandle.id server)
    (StateOnly.serverOutputChannels p)) as [c|] eqn:Hget; simpl.
  + repeat split; try done.
    * by rewrite length_alter.
    * intros id. by apply text_alter_same.
    * intros Hwf%so_channels_wf _.
      destruct (proj1 Hwf _ _ Hget) as (ch & Hch & _).
      rewrite (visible_alter _ _ _ _ _ _ _ Hwf Hget Hch). by rewrite decide_True.
  + repeat split; try done; by intros _ ?%is_Some_None.
- destruct (JsMap.get (Protocol.ServerHandle.id server)
    (HandleTracking.serverOutputChannels p)) as [c|] eqn:Hget; simpl.
  + repeat split; try done.
    * by rewrite length_alter.
    * intros id. by apply text_alter_same.
    * intros Hwf%ht_channels_wf _.
      destruct (proj1 Hwf _ _ Hget) as (ch & Hch & _).
      rewrite (visible_alter _ _ _ _ _ _ _ Hwf Hget Hch). by rewrite decide_True.
  + repeat split; try done; by intros _ ?%is_Some_None.
Qed.

Lemma showOutput_reveals_witness :
  exec (StateOnly.showOutput tomcat) (StateOnly.constructor [] false)
  = StateOnly.constructor [] false
  ∧ channel_visible
      (HandleTracking.serverOutputChannels
         (exec (HandleTracking.showOutput tomcat)
            (exec (HandleTracking.addServerOutput (says tomcat "a"))
               (HandleTracking.constructor [] false))))
      (HandleTracking.channels
         (exec (HandleTracking.showOutput tomcat)
            (exec (HandleTracking.addServerOutput (says tomcat "a"))
               (HandleTracking.constructor [] false)))) "s1"
    = true.
Proof.
split.
- apply (proj1 showOutput_reveals (StateOnly.constructor [] false) tomcat).
  reflexivity.
- apply (proj2 showOutput_reveals
    (exec (HandleTracking.addServerOutput (says tomcat "a"))
       (HandleTracking.constructor [] false)) tomcat).
  + apply (HandleTrackingHistory.reachable_call (AddServerOutput (says tomcat "a"))),
      HandleTrackingHistory.reachable_new.
  + by exists 0.
Defined.

Section StateOnlyViews.
Import StateOnly StateOnlyHistory.

Lemma so_output_visible output p id :
  reachable p →
  channel_visible (serverOutputChannels (exec (addServerOutput output) p))
    (channels (exec (addServerOutput output) p)) id
  = if decide (Protocol.ServerHandle.id
                 (Protocol.ServerProcessOutput.server output) = id)
    then showChannelOnServerOutput p
         || channel_visible (serverOutputChannels p) (channels p) id
    else channel_visible (serverOutputChannels p) (channels p) id.
Proof.
intros Hwf%so_channels_wf.
destruct (JsMap.get (Protocol.ServerHandle.id
  (Protocol.ServerProcessOutput.server output)) (serverOutputChannels p))
  as [c|] eqn:Hget.
- destruct (so_addServerOutput_next output c p Hget) as [-> ->].
  destruct (proj1 Hwf _ _ Hget) as (ch & Hch & _).
  rewrite (visible_alter _ _ _ _ _ _ _ Hwf Hget Hch). simpl.
  destruct (decide _) as [<-|Hne]; [|done].
  unfold channel_visible. by rewrite Hget, Hch.
- destruct (so_addServerOutput_first output p Hget) as (-> & -> & _).
  rewrite (visible_create _ _ _ _ _ Hwf Hget). simpl.
  destruct (decide _) as [<-|Hne]; [|done].
  unfold channel_visible. by rewrite Hget, orb_false_r.
Qed.

End StateOnlyViews.

Section HandleTrackingViews.
Import HandleTracking HandleTrackingHistory.

Lemma ht_output_visible output p id :
  reachable p →
  channel_visible (serverOutputChannels (exec (addServerOutput output) p))
    (channels (exec (addServerOutput output) p)) id
  = if decide (Protocol.ServerHandle.id
                 (Protocol.ServerProcessOutput.server output) = id)
    then showChannelOnServerOutput p
         || channel_visible (serverOutputChannels p) (channels p) id
    else channel_visible (serverOutputChannels p) (channels p) id.
Proof.
intros Hwf%ht_channels_wf.
destruct (JsMap.get (Protocol.ServerHandle.id
  (Protocol.ServerProcessOutput.server output)) (serverOutputChannels p))
  as [c|] eqn:Hget.
- destruct (ht_addServerOutput_next output c p Hget) as [-> ->].
  destruct (proj1 Hwf _ _ Hget) as (ch & Hch & _).
  rewrite (visible_alter _ _ _ _ _ _ _ Hwf Hget Hch). simpl.
  destruct (decide _) as [<-|Hne]; [|done].
  unfold channel_visible. by rewrite Hget, Hch.
- destruct (ht_addServerOutput_first output p Hget) as (-> & -> & _).
  rewrite (visible_create _ _ _ _ _ Hwf Hget). simpl.
  destruct (decide _) as [<-|Hne]; [|done].
  unfold channel_visible. by rewrite Hget, orb_false_r.
Qed.

End HandleTrackingViews.

(** X16: the [showChannelOnServerOutput] setting. From a reachable state of
    either variant, [addServerOutput] brings the channel of its server into
    view when the setting is on; when it is off the channel is in view
    afterwards only if it was before, and a channel created by the call is
    not. The channels of the other servers keep their place. *)
Theorem output_reveals_by_setting :
  (∀ (p : HandleTracking.provider) output id,
     HandleTrackingHistory.reachable p →
     channel_visible
       (HandleTracking.serverOutputChannels
          (exec (HandleTracking.addServerOutput output) p))
       (HandleTracking.channels
          (exec (HandleTracking.addServerOutput output) p)) id
     = if decide (Protocol.ServerHandle.id
                    (Protocol.ServerProcessOutput.server output) = id)
       then HandleTracking.showChannelOnServerOutput p
            || channel_visible (HandleTracking.serverOutputChannels p)
                 (HandleTracking.channels p) id
       else channel_visible (HandleTracking.serverOutputChannels p)
              (HandleTracking.channels p) id)
  ∧ (∀ (p : StateOnly.provider) output id,
       StateOnlyHistory.reachable p →
       channel_visible
         (StateOnly.serverOutputChannels
            (exec (StateOnly.addServerOutput output) p))
         (StateOnly.channels (exec (StateOnly.addServerOutput output) p)) id
       = if decide (Protocol.ServerHandle.id
                      (Protocol.ServerProcessOutput.server output) = id)
         then StateOnly.showChannelOnServerOutput p
              || channel_visible (StateOnly.serverOutputChannels p)
                   (StateOnly.channels p) id
         else channel_visible (StateOnly.serverOutputChannels p)
                (StateOnly.channels p) id).
Proof.
split; intros p output id Hp.
- by apply ht_output_visible.
- by apply so_output_visible.
Qed.

Lemma output_reveals_by_setting_witness :
  channel_visible
    (StateOnly.serverOutputChannels
       (exec (StateOnly.addServerOutput (says tomcat "a"))
          (StateOnly.constructor [] true)))
    (StateOnly.channels
       (exec (StateOnly.addServerOutput (says tomcat "a"))
          (StateOnly.constructor [] true))) "s1"
  = true.
Proof.
rewrite (proj2 output_reveals_by_setting).
- reflexivity.
- apply StateOnlyHistory.reachable_new.
Defined.

(** X17: output stays out of the tree. In both variants [addServerOutput]
    returns, fires no event and leaves the registry, hence the roots, as
    they were. *)
Theorem output_keeps_registry :
  (∀ (p : HandleTracking.provider) output,
     let p' := exec (HandleTracking.addServerOutput output) p in
     outcome (HandleTracking.addServerOutput output) p = Return tt
     ∧ HandleTracking.servers p' = HandleTracking.servers p
     ∧ HandleTracking.serverStatus p' = HandleTracking.serverStatus p
     ∧ HandleTracking.onDidChangeTreeData p'
       = HandleTracking.onDidChangeTreeData p
     ∧ HandleTracking.getChildren None p' = HandleTracking.getChildren None p)
  ∧ (∀ (p : StateOnly.provider) output,
       let p' := exec (StateOnly.addServerOutput output) p in
       outcome (StateOnly.addServerOutput output) p = Return tt
       ∧ StateOnly.serverStatus p' = StateOnly.serverStatus p
       ∧ StateOnly.onDidChangeTreeData p' = StateOnly.onDidChangeTreeData p
       ∧ StateOnly.getChildren None p' = StateOnly.getChildren None p).
Proof.
split; intros p output p'; subst p';
  unfold HandleTracking.getChildren, StateOnly.getChildren;
  run_method; repeat case_match; simplify_eq/=; done.
Qed.

(** ** Names and the creation workflow *)

Lemma is_space2_lead a b : is_space2 a b = true → is_space1 a = false.
Proof.
unfold is_space2. destruct (Ascii.eqb_spec a "194"%char) as [->|]; done.
Qed.

Lemma is_space3_lead a b c :
  is_space3 a b c = true → is_space1 a = false ∧ is_space2 a b = false.
Proof.
unfold is_space3, is_space2.
destruct (Ascii.eqb_spec a "225"%char) as [->|]; [done|].
destruct (Ascii.eqb_spec a "226"%char) as [->|]; [done|].
destruct (Ascii.eqb_spec a "227"%char) as [->|]; [done|].
destruct (Ascii.eqb_spec a "239"%char) as [->|]; done.
Qed.

Lemma trimStart_1 a r : is_space1 a = true → trimStart (String a r) = trimStart r.
Proof. intros Ha. simpl. by rewrite Ha. Qed.

Lemma trimStart_2 a b r :
  is_space2 a b = true → trimStart (String a (String b r)) = trimStart r.
Proof. intros Hab. simpl. by rewrite (is_space2_lead _ _ Hab), Hab. Qed.

Lemma trimStart_3 a b c r :
  is_space3 a b c = true →
  trimStart (String a (String b (String c r))) = trimStart r.
Proof.
intros Habc. destruct (is_space3_lead _ _ _ Habc) as [Ha Hab].
simpl. by rewrite Ha, Hab, Habc.
Qed.

Lemma blank_trimStart s : blank s → trimStart s = "".
Proof.
induction 1 as [|a r Ha _ IH|a b r Hab _ IH|a b c r Habc _ IH].
- done.
- by rewrite trimStart_1.
- by rewrite trimStart_2.
- by rewrite trimStart_3.
Qed.

(** One step of [trimStart]: it stops, or it goes on after one character
    of white space. *)
Lemma trimStart_step s :
  trimStart s = s ∧ (s = "" ∨ ¬ blank s)
  ∨ ∃ r, (String.length r < String.length s)%nat
      ∧ trimStart s = trimStart r ∧ (blank r → blank s).
Proof.
destruct s as [|a r1]; [left; by split; [|left]|].
destruct (is_space1 a) eqn:Ha.
{ right. exists r1. split; [simpl; lia|]. split; [by apply trimStart_1|].
  by apply blank_1. }
destruct r1 as [|b r2].
{ left. split; [simpl; by rewrite Ha|]. right. inversion 1; congruence. }
destruct (is_space2 a b) eqn:Hab.
{ right. exists r2. split; [simpl; lia|]. split; [by apply trimStart_2|].
  by apply blank_2. }
destruct r2 as [|c r3].
{ left. split; [simpl; by rewrite Ha, Hab|]. right. inversion 1; congruence. }
destruct (is_space3 a b c) eqn:Habc.
{ right. exists r3. split; [simpl; lia|]. split; [by apply trimStart_3|].
  by apply blank_3. }
left. split; [simpl; by rewrite Ha, Hab, Habc|]. right. inversion 1; congruence.
Qed.

Lemma trimStart_facts n : ∀ s,
  (String.length s ≤ n)%nat →
  (trimStart s = "" → blank s) ∧ trimStart (trimStart s) = trimStart s.
Proof.
induction n as [|n IH]; intros s Hs.
- destruct s; [|simpl in Hs; lia]. split; [constructor|done].
- destruct (trimStart_step s) as [[Hstop _]|(r & Hr & Hgo & Hblank)].
  + rewrite !Hstop. split; [|done]. intros ->. constructor.
  + destruct (IH r) as [IHblank IHidem]; [lia|].
    rewrite !Hgo. split; [|done]. intros Hempty. by apply Hblank, IHblank.
Qed.

Lemma trimEnd_empty s : trimEnd s = "" → trimStart s = "".
Proof.
destruct s as [|a r]; [done|]. simpl trimEnd. unfold all_space.
destruct (String.eqb_spec (trimStart (String a r)) ""); done.
Qed.

Lemma trim_blank_iff s : trim s = "" ↔ blank s.
Proof.
unfold trim. split.
- intros Hend%trimEnd_empty.
  destruct (trimStart_facts (String.length s) s) as [Hblank Hidem]; [done|].
  apply Hblank. by rewrite <-Hidem.
- intros Hs%blank_trimStart. by rewrite Hs.
Qed.

(** X18: what [validateInput] answers. A name made of white space only,
    the empty name included, is refused as empty; any other name is refused
    as duplicate when the registry has it and accepted when not. White
    space is all that [trim] removes, the no-break space and the other
    Unicode spaces as well as the ASCII ones. The registry is [servers] in
    the handle-tracking variant and [serverStatus] in the state-only
    variant, where a server that was added but has no state yet is
    therefore not seen as a duplicate. *)
Theorem validateInput_answers :
  (∀ (registered : string → bool) value,
     blank value →
     validate registered value = Some "Cannot set empty server name")
  ∧ (∀ (registered : string → bool) value,
       ¬ blank value →
       validate registered value
       = if registered value then Some "Cannot set duplicate server name"
         else None)
  ∧ (∀ (p : StateOnly.provider) handle,
       validate (λ value, defined (JsMap.get value (StateOnly.serverStatus
                   (exec (StateOnly.insertServer handle) p))))
         (Protocol.ServerHandle.id handle)
       = validate (λ value, defined (JsMap.get value (StateOnly.serverStatus p)))
           (Protocol.ServerHandle.id handle))
  ∧ (∀ (p : HandleTracking.provider) handle,
       ¬ blank (Protocol.ServerHandle.id handle) →
       validate (λ value, defined (JsMap.get value (HandleTracking.servers
                   (exec (HandleTracking.insertServer handle) p))))
         (Protocol.ServerHandle.id handle)
       = Some "Cannot set duplicate server name").
Proof.
assert (∀ (registered : string → bool) value,
  ¬ blank value →
  validate registered value
  = if registered value then Some "Cannot set duplicate server name"
    else None) as Hname.
{ intros registered value Hblank. unfold validate.
  assert (trim value ≠ "") as Htrim by (by rewrite trim_blank_iff).
  assert (value ≠ "") as Hvalue by (intros ->; apply Hblank; constructor).
  apply String.eqb_neq in Hvalue. simpl. rewrite Hvalue. simpl.
  destruct (trim value); done. }
split; [|split; [done|split]].
- intros registered value Hblank%trim_blank_iff. unfold validate.
  by rewrite Hblank, orb_true_r.
- done.
- intros p handle Hblank. rewrite Hname by done.
  run_method. by rewrite get_set_eq.
Qed.

Lemma validateInput_answers_witness :
  validate (λ _, false) spaces = Some "Cannot set empty server name"
  ∧ validate (λ value, defined (JsMap.get value (HandleTracking.servers
                (exec (HandleTracking.insertServer tomcat)
                   (HandleTracking.constructor [] false))))) "s1"
    = Some "Cannot set duplicate server name".
Proof.
destruct validateInput_answers as (Hempty & _ & _ & Hduplicate).
split.
- apply Hempty. unfold spaces.
  apply blank_2; [reflexivity|]. apply blank_3; [reflexivity|].
  apply blank_1; [reflexivity|]. apply blank_empty.
- apply (Hduplicate (HandleTracking.constructor [] false) tomcat).
  intros Hblank. inversion Hblank; discriminate.
Defined.

Section WorkflowOutcomes.
Variable showOpenDialog : OpenDialogOptions → settled (option (list Uri.t)).
Variable showInputBox : InputBoxOptions → settled (option string).
Variable findServerBeans :
  string → settled (option (list Protocol.ServerBean.t)).
Variable createServerAsync :
  Protocol.ServerBean.t → string → settled Protocol.Status.t.
Variable registered : string → bool.

Local Abbreviation workflow :=
  (addLocation showOpenDialog showInputBox findServerBeans createServerAsync
     registered).

Local Abbreviation nameOptions :=
  (mkInputBoxOptions "Provide the server name" "Server name"
     (validate registered)).

Lemma detected_Some serverBeans bean :
  detected serverBeans = Some bean ↔
  ∃ rest, serverBeans = Some (bean :: rest)
    ∧ truthy (Protocol.ServerBean.typeCategory bean) = true
    ∧ Protocol.ServerBean.typeCategory bean ≠ Some "UNKNOWN".
Proof.
unfold detected. split.
- destruct serverBeans as [[|bean' rest]|]; try done.
  destruct (truthy _) eqn:Htruthy; [|done]. simpl.
  case_bool_decide; [done|]. intros [= <-]. eauto.
- intros (rest & -> & -> & Hknown). simpl. by rewrite bool_decide_false.
Qed.

(** X19: the last stage of [addLocation], in both variants (they differ in
    [registered] alone). With one folder chosen, a first bean of a known
    category and a non-empty name given, the workflow sends the discovery
    and then one creation request for that first bean and that name; it
    is fulfilled with the status of the control service when its severity
    is at most 0, rejected with the message of the status when the severity
    is greater, and rejected with the reason of the control service when
    the request itself is rejected. *)
Theorem addLocation_creates folder bean rest name :
  showOpenDialog locationOptions = Fulfilled (Some [folder]) →
  findServerBeans (Uri.fsPath folder) = Fulfilled (Some (bean :: rest)) →
  truthy (Protocol.ServerBean.typeCategory bean) = true →
  Protocol.ServerBean.typeCategory bean ≠ Some "UNKNOWN" →
  showInputBox nameOptions = Fulfilled (Some name) →
  name ≠ "" →
  workflow
  = match createServerAsync bean name with
    | Fulfilled status =>
        ([FindServerBeans (Uri.fsPath folder); CreateServerAsync bean name],
         if (Protocol.Status.severity status >? 0)%Z
         then Rejected (Protocol.Status.message status)
         else Fulfilled (Some status))
    | Rejected reason =>
        ([FindServerBeans (Uri.fsPath folder); CreateServerAsync bean name],
         Rejected reason)
    end.
Proof.
intros Hdialog Hbeans Htruthy Hknown Hname Hne.
assert (detected (Some (bean :: rest)) = Some bean) as Hdetected
  by (apply detected_Some; eauto).
apply String.eqb_neq in Hne.
unfold addLocation, selectLocation, host, findBeans, client, then_ at 3.
rewrite Hdialog. simpl. rewrite Hbeans. simpl.
unfold promptName. rewrite Hdetected. unfold host. rewrite Hname. simpl.
rewrite Hne. simpl. unfold client.
destruct (createServerAsync bean name) as [status|reason]; simpl; [|done].
by destruct (_ >? _)%Z.
Qed.

(** X20: [addLocation] never asks for a server on incomplete input. If a
    creation request for a bean and a name is among the requests sent,
    then one folder was chosen, the discovery answered with that bean first
    and with a category that is neither missing, empty nor [UNKNOWN], and
    the name is the non-empty one the input box gave; and the requests
    sent are the discovery and that single creation, in this order. *)
Theorem addLocation_creation_guarded bean name :
  CreateServerAsync bean name ∈ workflow.1 →
  ∃ folder rest,
    showOpenDialog locationOptions = Fulfilled (Some [folder])
    ∧ findServerBeans (Uri.fsPath folder) = Fulfilled (Some (bean :: rest))
    ∧ truthy (Protocol.ServerBean.typeCategory bean) = true
    ∧ Protocol.ServerBean.typeCategory bean ≠ Some "UNKNOWN"
    ∧ showInputBox nameOptions = Fulfilled (Some name)
    ∧ name ≠ ""
    ∧ workflow.1
      = [FindServerBeans (Uri.fsPath folder); CreateServerAsync bean name].
Proof.
unfold addLocation, selectLocation, host, findBeans, client, then_ at 3.
destruct (showOpenDialog locationOptions) as [[[|folder [|? ?]]|]|reason]
  eqn:Hdialog; simpl; try by intros ?%elem_of_nil.
destruct (findServerBeans (Uri.fsPath folder)) as [serverBeans|reason]
  eqn:Hbeans; simpl; [|by intros [= ]%list_elem_of_singleton].
unfold promptName.
destruct (detected serverBeans) as [bean'|] eqn:Hdetected.
- apply detected_Some in Hdetected as (rest & -> & Htruthy & Hknown).
  unfold host.
  destruct (showInputBox nameOptions) as [[name'|]|reason] eqn:Hname; simpl;
    try by intros [= ]%list_elem_of_singleton.
  destruct (negb (name' =? "")) eqn:Hne; simpl;
    [|by intros [= ]%list_elem_of_singleton].
  unfold client.
  assert (∀ r : settled (option Protocol.Status.t),
    CreateServerAsync bean name
      ∈ [FindServerBeans (Uri.fsPath folder); CreateServerAsync bean' name'] →
    bean = bean' ∧ name = name') as Hsent.
  { intros _ [[= ]|[[= -> ->]|[]%elem_of_nil]%elem_of_cons]%elem_of_cons.
    done. }
  apply negb_true_iff, String.eqb_neq in Hne.
  destruct (createServerAsync bean' name') as [status|reason]; simpl.
  + destruct (_ >? _)%Z; simpl; intros [-> ->]%(Hsent (Fulfilled None));
      exists folder, rest; done.
  + intros [-> ->]%(Hsent (Fulfilled None)). exists folder, rest. done.
- destruct (defined serverBeans); simpl;
    by intros [= ]%list_elem_of_singleton.
Qed.

(** X21: where [addLocation] stops early. A rejected folder dialog, a
    rejected discovery and a rejected input box reject the workflow with
    the same reason; a dialog closed without exactly one folder ends it
    without result and without request; an input box closed without a name
    or with the empty name ends it without result. In none of these cases
    is a creation request sent. *)
Theorem addLocation_stops_early :
  (∀ reason, showOpenDialog locationOptions = Rejected reason →
             workflow = ([], Rejected reason))
  ∧ (∀ folders, showOpenDialog locationOptions = Fulfilled folders →
                (∀ folder, folders ≠ Some [folder]) →
                workflow = ([], Fulfilled None))
  ∧ (∀ folder reason,
       showOpenDialog locationOptions = Fulfilled (Some [folder]) →
       findServerBeans (Uri.fsPath folder) = Rejected reason →
       workflow = ([FindServerBeans (Uri.fsPath folder)], Rejected reason))
  ∧ (∀ folder serverBeans bean name,
       showOpenDialog locationOptions = Fulfilled (Some [folder]) →
       findServerBeans (Uri.fsPath folder) = Fulfilled serverBeans →
       detected serverBeans = Some bean →
       showInputBox nameOptions = Fulfilled name →
       name = None ∨ name = Some "" →
       workflow = ([FindServerBeans (Uri.fsPath folder)], Fulfilled None))
  ∧ (∀ folder serverBeans bean reason,
       showOpenDialog locationOptions = Fulfilled (Some [folder]) →
       findServerBeans (Uri.fsPath folder) = Fulfilled serverBeans →
       detected serverBeans = Some bean →
       showInputBox nameOptions = Rejected reason →
       workflow = ([FindServerBeans (Uri.fsPath folder)], Rejected reason)).
Proof.
repeat split.
- intros reason Hdialog.
  unfold addLocation, selectLocation, host, then_ at 3. by rewrite Hdialog.
- apply workflow_no_folder.
- intros folder reason Hdialog Hbeans.
  unfold addLocation, selectLocation, host, findBeans, client, then_ at 3.
  rewrite Hdialog. simpl. by rewrite Hbeans.
- intros folder serverBeans bean name Hdialog Hbeans Hdetected Hname Hnone.
  unfold addLocation, selectLocation, host, findBeans, client, then_ at 3.
  rewrite Hdialog. simpl. rewrite Hbeans. simpl.
  unfold promptName. rewrite Hdetected. unfold host. rewrite Hname.
  by destruct Hnone as [-> | ->].
- intros folder serverBeans bean reason Hdialog Hbeans Hdetected Hname.
  unfold addLocation, selectLocation, host, findBeans, client, then_ at 3.
  rewrite Hdialog. simpl. rewrite Hbeans. simpl.
  unfold promptName. rewrite Hdetected. unfold host. by rewrite Hname.
Qed.

End WorkflowOutcomes.

Lemma addLocation_creates_witness :
  StateOnly.addLocation pick_srv (λ _, Fulfilled (Some "s1"))
    (λ _, Fulfilled (Some [eap_bean]))
    (λ _ _, Fulfilled (Protocol.Status.mk 4 "Server already exists"))
    (StateOnly.constructor [] false)
  = ([FindServerBeans "/opt/srv"; CreateServerAsync eap_bean "s1"],
     Rejected "Server already exists").
Proof.
apply (addLocation_creates pick_srv (λ _, Fulfilled (Some "s1"))
  (λ _, Fulfilled (Some [eap_bean]))
  (λ _ _, Fulfilled (Protocol.Status.mk 4 "Server already exists"))
  (λ value, defined (JsMap.get value
     (StateOnly.serverStatus (StateOnly.constructor [] false))))
  srv_folder eap_bean [] "s1"); try reflexivity; discriminate.
Defined.

Lemma addLocation_creation_guarded_witness :
  ∃ folder rest,
    pick_srv locationOptions = Fulfilled (Some [folder])
    ∧ Fulfilled (Some [eap_bean]) = Fulfilled (Some (eap_bean :: rest))
    ∧ truthy (Protocol.ServerBean.typeCategory eap_bean) = true.
Proof.
destruct (addLocation_creation_guarded pick_srv (λ _, Fulfilled (Some "s1"))
  (λ _, Fulfilled (Some [eap_bean])) created (λ _, false) eap_bean "s1")
  as (folder & rest & Hdialog & Hbeans & Htruthy & _).
- right. left.
- by exists folder, rest.
Defined.

Lemma addLocation_stops_early_witness :
  HandleTracking.addLocation (λ _, Fulfilled None) no_name
    (λ _, Fulfilled (Some [eap_bean])) created
    (HandleTracking.constructor [] false)
  = ([], Fulfilled None)
  ∧ HandleTracking.addLocation pick_srv no_name
      (λ _, Fulfilled (Some [eap_bean])) created
      (HandleTracking.constructor [] false)
    = ([FindServerBeans "/opt/srv"], Fulfilled None).
Proof.
split.
- apply (proj1 (proj2 (addLocation_stops_early (λ _, Fulfilled None) no_name
    (λ _, Fulfilled (Some [eap_bean])) created
    (λ value, defined (JsMap.get value
       (HandleTracking.servers (HandleTracking.constructor [] false))))))
    None); [reflexivity|done].
- apply (proj1 (proj2 (proj2 (proj2 (addLocation_stops_early pick_srv no_name
    (λ _, Fulfilled (Some [eap_bean])) created
    (λ value, defined (JsMap.get value
       (HandleTracking.servers (HandleTracking.constructor [] false))))))))
    srv_folder (Some [eap_bean]) eap_bean None); try reflexivity. by left.
Defined.

(** ** Adding servers *)

(** X22: what [insertServer] does to the roots of the handle-tracking
    variant. The handle is filed under its identifier and is among the
    roots afterwards; a server that was not there comes after the other
    roots, and a server that was there keeps its place, the servers of the
    roots and their order being unchanged. *)
Theorem insertServer_roots :
  (∀ (p : HandleTracking.provider) handle,
     let p' := exec (HandleTracking.insertServer handle) p in
     JsMap.get (Protocol.ServerHandle.id handle) (HandleTracking.servers p')
       = Some handle
     ∧ ∃ roots, HandleTracking.getChildren None p' = Some roots
         ∧ HandleNode handle ∈ roots)
  ∧ (∀ (p : HandleTracking.provider) handle,
       JsMap.get (Protocol.ServerHandle.id handle) (HandleTracking.servers p)
         = None →
       HandleTracking.getChildren None
         (exec (HandleTracking.insertServer handle) p)
       = (λ roots, roots ++ [HandleNode handle])
           <$> HandleTracking.getChildren None p)
  ∧ (∀ (p : HandleTracking.provider) handle,
       HandleTrackingHistory.reachable p →
       is_Some (JsMap.get (Protocol.ServerHandle.id handle)
                  (HandleTracking.servers p)) →
       root_servers (HandleTracking.getChildren None
                       (exec (HandleTracking.insertServer handle) p))
       = root_servers (HandleTracking.getChildren None p)).
Proof.
split; [|split].
- intros p handle p'. subst p'. run_method. split; [apply get_set_eq|].
  eexists. split; [reflexivity|].
  apply list_elem_of_fmap. exists handle. split; [done|].
  eapply elem_of_values_get, get_set_eq.
- intros p handle Hnew. unfold HandleTracking.getChildren. run_method.
  by rewrite values_set_fresh, fmap_app.
- intros p handle Hp Hknown.
  assert (HandleTrackingHistory.reachable
    (exec (HandleTracking.insertServer handle) p))
    as Hp' by apply (HandleTrackingHistory.reachable_call (InsertServer handle) p Hp).
  unfold HandleTracking.getChildren, root_servers.
  rewrite !ht_roots_servers by done.
  change (HandleTracking.servers (exec (HandleTracking.insertServer handle) p))
    with (JsMap.set (Protocol.ServerHandle.id handle) handle
            (HandleTracking.servers p)).
  by rewrite keys_set_known.
Qed.

Lemma insertServer_roots_witness :
  HandleTracking.getChildren None
    (exec (HandleTracking.insertServer wildfly)
       (exec (HandleTracking.insertServer tomcat)
          (HandleTracking.constructor [] false)))
  = Some [HandleNode tomcat; HandleNode wildfly]
  ∧ root_servers
      (HandleTracking.getChildren None
         (exec (HandleTracking.insertServer tomcat)
            (dispatch (HandleTrackingHistory.call <$>
               [InsertServer tomcat; InsertServer wildfly])
               (HandleTracking.constructor [] false))))
    = Some [Some "s1"; Some "s2"].
Proof.
destruct insertServer_roots as (_ & Hnew & Hknown).
split.
- apply (Hnew (exec (HandleTracking.insertServer tomcat)
    (HandleTracking.constructor [] false)) wildfly).
  reflexivity.
- rewrite (Hknown (dispatch (HandleTrackingHistory.call <$>
    [InsertServer tomcat; InsertServer wildfly])
    (HandleTracking.constructor [] false)) tomcat).
  + reflexivity.
  + do 2 apply HandleTrackingHistory.reachable_call.
    apply HandleTrackingHistory.reachable_new.
  + by exists tomcat.
Defined.
